(** * Brian agent: request boundary, chat client and orchestration contract

    A shallow embedding of
    - [src/app/api/agent/route.ts]  (the [POST] handler),
    - [src/app/page.tsx]            (the [handleSubmit] form handler),
    - the interfaces of [types/agent] ([AgentToolSettings], [AgentSource],
      [AgentDiagnostics], [AgentResponse], [AgentRequestPayload]),
    together with a model of the orchestration core [lib/agent], whose
    source is not part of the tree and which is therefore written down
    from the specification. *)

From Stdlib Require Import List String Ascii Bool Arith NArith QArith.
From Stdlib Require Import Lia Lqa Permutation Sorted.
From Stdlib Require Import Floats.SpecFloat DecimalString.
Import ListNotations.

Local Open Scope nat_scope.
Local Open Scope list_scope.

(* ------------------------------------------------------------------ *)
(** ** JavaScript values *)
(* ------------------------------------------------------------------ *)

Module JS.

(** A JavaScript string is a sequence of UTF-16 code units. *)
Definition jsstring : Type := list N.

(** ASCII literals of the source text. *)
Definition lit (s : string) : jsstring :=
  map N_of_ascii (list_ascii_of_string s).

(** [a === b] on strings. *)
Fixpoint jsstring_eqb (a b : jsstring) : bool :=
  match a, b with
  | [], [] => true
  | x :: a', y :: b' => (x =? y)%N && jsstring_eqb a' b'
  | _, _ => false
  end.

(** ECMAScript [WhiteSpace] and [LineTerminator] code units: what
    [String.prototype.trim] strips. *)
Definition is_white_space (c : N) : bool :=
  (  (c =? 0x09) || (c =? 0x0A) || (c =? 0x0B) || (c =? 0x0C) || (c =? 0x0D)
  || (c =? 0x20) || (c =? 0xA0) || (c =? 0x1680)
  || ((0x2000 <=? c) && (c <=? 0x200A))
  || (c =? 0x2028) || (c =? 0x2029) || (c =? 0x202F) || (c =? 0x205F)
  || (c =? 0x3000) || (c =? 0xFEFF))%N.

Fixpoint trimStart (s : jsstring) : jsstring :=
  match s with
  | [] => []
  | c :: s' => if is_white_space c then trimStart s' else s
  end.

Definition trimEnd (s : jsstring) : jsstring :=
  rev (trimStart (rev s)).

(** [s.trim()] *)
Definition trim (s : jsstring) : jsstring :=
  trimEnd (trimStart s).

(** Runtime values.  [VNum] carries the IEEE-754 double; an object is the
    list of its own properties. *)
#[local] Set Warnings "-register-all".
Inductive value : Type :=
| VUndefined
| VNull
| VBool (b : bool)
| VNum (x : spec_float)
| VStr (s : jsstring)
| VArr (elems : list value)
| VObj (props : list (jsstring * value)).

(** [ToBoolean]: [undefined], [null], [false], [+0], [-0], [NaN] and the
    empty string are falsy, everything else is truthy. *)
Definition truthy (v : value) : bool :=
  match v with
  | VUndefined | VNull => false
  | VBool b => b
  | VNum (S754_zero _) | VNum S754_nan => false
  | VNum _ => true
  | VStr s => match s with [] => false | _ :: _ => true end
  | VArr _ | VObj _ => true
  end.

Fixpoint own_property (props : list (jsstring * value)) (k : jsstring) : value :=
  match props with
  | [] => VUndefined
  | (k', v) :: rest => if jsstring_eqb k' k then v else own_property rest k
  end.

(** Reading a property that no built-in prototype defines (the handler
    reads [query], [vision] and [enabledTools] only): an object answers
    with its own property, every other non-nullish value with
    [undefined]. *)
Definition get (v : value) (k : jsstring) : value :=
  match v with
  | VObj props => own_property props k
  | _ => VUndefined
  end.

Definition nullish (v : value) : bool :=
  match v with
  | VUndefined | VNull => true
  | _ => false
  end.

(** [a ?? b] *)
Definition nullish_coalesce (a b : value) : value :=
  if nullish a then b else a.

(** A thrown value. *)
Record error : Type := Error { name : jsstring; message : jsstring }.

End JS.
Import JS.

Notation "a ?? b" := (nullish_coalesce a b) (at level 45, right associativity).

(* ------------------------------------------------------------------ *)
(** ** The interfaces of [types/agent] *)
(* ------------------------------------------------------------------ *)

Record AgentToolSettings : Type := {
  search : bool;
  knowledge : bool;
  community : bool;
  system : bool
}.

Record AgentRequestPayload : Type := {
  req_query : jsstring;
  req_vision : option jsstring;
  req_enabledTools : AgentToolSettings
}.

Inductive AgentSourceType : Type := Search | Knowledge | Community | System.

(** [confidence: number]: the finite double is represented by the
    rational it denotes. *)
Record AgentSource : Type := {
  src_id : jsstring;
  src_type : AgentSourceType;
  src_title : jsstring;
  src_url : option jsstring;
  src_snippet : jsstring;
  src_confidence : Q;
  src_metadata : option (list (jsstring * value))
}.

Record AgentDiagnostics : Type := {
  steps : list jsstring;
  toolTrace : list jsstring;
  visionBias : option (list jsstring);
  errors : option (list jsstring)
}.

Record AgentResponse : Type := {
  query : jsstring;
  vision : option jsstring;
  timestamp : jsstring;
  summary : jsstring;
  plan : list jsstring;
  sources : list AgentSource;
  diagnostics : AgentDiagnostics
}.

(** The object a tool-settings record denotes at run time (an object
    literal, or what [JSON.stringify] followed by [JSON.parse] gives). *)
Definition toolSettings_value (t : AgentToolSettings) : value :=
  VObj [ (lit "search", VBool (search t));
         (lit "knowledge", VBool (knowledge t));
         (lit "community", VBool (community t));
         (lit "system", VBool (system t)) ].

(* ------------------------------------------------------------------ *)
(** ** [src/app/api/agent/route.ts] *)
(* ------------------------------------------------------------------ *)

Module Route.

(** The argument object the handler builds for [getAgentResponse].  The
    cast [as Partial<AgentRequestPayload>] checks nothing, so the fields
    are whatever values the body carried. *)
Record CoreArgs : Type := {
  arg_query : value;
  arg_vision : value;
  arg_enabledTools : value
}.

(** What the handler does to the outside world, in order. *)
Inductive event : Type :=
| CoreCall (args : CoreArgs)
| ConsoleError (msg : jsstring) (err : error).

(** Computations that may throw and that log their events. *)
Definition M (A : Type) : Type := list event -> (error + A) * list event.

Definition ret {A} (a : A) : M A := fun log => (inr a, log).
Definition throw {A} (e : error) : M A := fun log => (inl e, log).
Definition bind {A B} (m : M A) (k : A -> M B) : M B :=
  fun log =>
    match m log with
    | (inl e, log') => (inl e, log')
    | (inr a, log') => k a log'
    end.
Definition emit (ev : event) : M unit := fun log => (inr tt, log ++ [ev]).

(** [try { body } catch (error) { handler(error) }] *)
Definition try_catch {A} (body : M A) (handler : error -> M A) : M A :=
  fun log =>
    match body log with
    | (inl e, log') => handler e log'
    | (inr a, log') => (inr a, log')
    end.

Notation "x <- m ;; k" := (bind m (fun x => k))
  (at level 61, m at next level, right associativity).
Notation "m ;;; k" := (bind m (fun _ => k))
  (at level 61, right associativity).

(** [v.k]: a [TypeError] on [undefined] and [null]. *)
Definition member (v : value) (k : jsstring) : M value :=
  if nullish v
  then throw (Error (lit "TypeError") (lit "Cannot read properties of null or undefined"))
  else ret (get v k).

(** [v?.k] *)
Definition opt_member (v : value) (k : jsstring) : value :=
  if nullish v then VUndefined else get v k.

(** The incoming [Request]: [await request.json()] either yields the
    parsed body or rejects (a body that is not JSON). *)
Record Request : Type := { json : error + value }.

Definition request_json (request : Request) : M value :=
  match json request with
  | inl e => throw e
  | inr v => ret v
  end.

Inductive Body : Type :=
| ErrorBody (error : jsstring)          (* [{ error: "..." }] *)
| ResponseBody (response : AgentResponse).

Record NextResponse : Type := { body : Body; status : nat }.

(** [NextResponse.json(body, { status })]; the status defaults to 200. *)
Definition NextResponse_json (b : Body) (init : option nat) : NextResponse :=
  {| body := b; status := match init with Some s => s | None => 200 end |}.

Definition defaultEnabledTools : value :=
  VObj [ (lit "search", VBool true);
         (lit "knowledge", VBool true);
         (lit "community", VBool true);
         (lit "system", VBool true) ].

Section Handler.

(** [getAgentResponse] of [@/lib/agent]: awaited, it resolves with a
    response or rejects. *)
Variable getAgentResponse : CoreArgs -> error + AgentResponse.

Definition await_getAgentResponse (args : CoreArgs) : M AgentResponse :=
  emit (CoreCall args) ;;;
  match getAgentResponse args with
  | inl e => throw e
  | inr r => ret r
  end.

Definition console_error (msg : jsstring) (err : error) : M unit :=
  emit (ConsoleError msg err).

Definition POST (request : Request) : M NextResponse :=
  try_catch
    (payload <- request_json request ;;
     if negb (truthy (opt_member payload (lit "query"))) then
       ret (NextResponse_json
              (ErrorBody (lit "The assistant needs a query to proceed."))
              (Some 400))
     else
       q <- member payload (lit "query") ;;
       v <- member payload (lit "vision") ;;
       t <- member payload (lit "enabledTools") ;;
       response <- await_getAgentResponse
                     {| arg_query := q;
                        arg_vision := v;
                        arg_enabledTools := t ?? defaultEnabledTools |} ;;
       ret (NextResponse_json (ResponseBody response) None))
    (fun error =>
       console_error (lit "Agent handler failed") error ;;;
       ret (NextResponse_json
              (ErrorBody (lit "Agent failed to complete the request."))
              (Some 500))).

(** One run of the handler: the reply and the events, from an empty log. *)
Definition handle (request : Request) : (error + NextResponse) * list event :=
  POST request [].

End Handler.

(** The core calls among the events. *)
Fixpoint core_calls (log : list event) : list CoreArgs :=
  match log with
  | [] => []
  | CoreCall a :: rest => a :: core_calls rest
  | ConsoleError _ _ :: rest => core_calls rest
  end.

(** The two error replies of the handler. *)
Definition badRequest : NextResponse :=
  {| body := ErrorBody (lit "The assistant needs a query to proceed.");
     status := 400 |}.

Definition serverError : NextResponse :=
  {| body := ErrorBody (lit "Agent failed to complete the request.");
     status := 500 |}.

Definition ok (r : AgentResponse) : NextResponse :=
  {| body := ResponseBody r; status := 200 |}.

(** The argument object built from a parsed body. *)
Definition args_from (v : value) : CoreArgs :=
  {| arg_query := get v (lit "query");
     arg_vision := get v (lit "vision");
     arg_enabledTools := get v (lit "enabledTools") ?? defaultEnabledTools |}.

(** The body is accepted: it parsed and carries a truthy [query]. *)
Definition accepted (request : Request) : Prop :=
  exists v, json request = inr v /\ truthy (opt_member v (lit "query")) = true.

(** [query] is absent, or a string that is empty once trimmed. *)
Definition query_blank (v : value) : bool :=
  match opt_member v (lit "query") with
  | VUndefined => true
  | VStr s => match trim s with [] => true | _ :: _ => false end
  | _ => false
  end.

End Route.

(* ------------------------------------------------------------------ *)
(** ** [src/app/page.tsx] *)
(* ------------------------------------------------------------------ *)

Module Page.

Inductive MessageRole : Type := user | agent.

Record Message : Type := {
  msg_id : jsstring;
  role : MessageRole;
  content : jsstring;
  payload : option AgentResponse;
  createdAt : jsstring
}.

Definition defaultTools : AgentToolSettings :=
  {| search := true; knowledge := true; community := false; system := true |}.

Definition defaultVision : jsstring :=
  lit "Hybrid Brian is a sovereign Ubuntu-native copilot that combines open intelligence, repeatable automations, and privacy-first world awareness.".

(** The [useState] cells of [HomePage]. *)
Record State : Type := {
  st_vision : jsstring;
  st_tools : AgentToolSettings;
  st_query : jsstring;
  st_messages : list Message;
  st_loading : bool;
  st_error : option jsstring
}.

Definition initialState : State :=
  {| st_vision := defaultVision; st_tools := defaultTools; st_query := [];
     st_messages := []; st_loading := false; st_error := None |}.

(** The argument of [fetch]; [fetch_body] is the object handed to
    [JSON.stringify]. *)
Record FetchRequest : Type := {
  fetch_url : jsstring;
  fetch_method : jsstring;
  fetch_headers : list (jsstring * jsstring);
  fetch_body : value
}.

(** What a [catch] receives: an [Error] instance or some other value. *)
Inductive thrown : Type :=
| ThrownError (err : error)
| ThrownOther (v : value).

(** How an awaited [fetch] ends: it rejects, or resolves with a response
    whose [ok] flag and [json()] result are given. *)
Inductive FetchResult : Type :=
| Rejected (err : thrown)
| Resolved (ok : bool) (json : thrown + AgentResponse).

(** [handleSubmit] up to its first [await]: the state after the batched
    setters, and the request handed to [fetch] if one is.  [uuid] and
    [now] are what [crypto.randomUUID()] and [new Date().toISOString()]
    return. *)
Definition handleSubmit (uuid now : jsstring) (st : State)
  : State * option FetchRequest :=
  if negb (truthy (VStr (trim (st_query st)))) || st_loading st then
    (st, None)
  else
    let submission := trim (st_query st) in
    let userMessage :=
      {| msg_id := uuid; role := user; content := submission;
         payload := None; createdAt := now |} in
    ({| st_vision := st_vision st;
        st_tools := st_tools st;
        st_query := [];
        st_messages := st_messages st ++ [userMessage];
        st_loading := true;
        st_error := None |},
     Some {| fetch_url := lit "/api/agent";
             fetch_method := lit "POST";
             fetch_headers := [(lit "Content-Type", lit "application/json")];
             fetch_body :=
               VObj [ (lit "query", VStr submission);
                      (lit "vision", VStr (st_vision st));
                      (lit "enabledTools", toolSettings_value (st_tools st)) ] |}).

Definition setLoading (b : bool) (st : State) : State :=
  {| st_vision := st_vision st; st_tools := st_tools st;
     st_query := st_query st; st_messages := st_messages st;
     st_loading := b; st_error := st_error st |}.

Definition setError (e : option jsstring) (st : State) : State :=
  {| st_vision := st_vision st; st_tools := st_tools st;
     st_query := st_query st; st_messages := st_messages st;
     st_loading := st_loading st; st_error := e |}.

Definition setQuery (q : jsstring) (st : State) : State :=
  {| st_vision := st_vision st; st_tools := st_tools st;
     st_query := q; st_messages := st_messages st;
     st_loading := st_loading st; st_error := st_error st |}.

Definition setVision (v : jsstring) (st : State) : State :=
  {| st_vision := v; st_tools := st_tools st;
     st_query := st_query st; st_messages := st_messages st;
     st_loading := st_loading st; st_error := st_error st |}.

Definition setTools (t : AgentToolSettings) (st : State) : State :=
  {| st_vision := st_vision st; st_tools := t;
     st_query := st_query st; st_messages := st_messages st;
     st_loading := st_loading st; st_error := st_error st |}.

(** [handleToggle(key)]; the keys of [AgentToolSettings] are the four
    source types. *)
Definition handleToggle (key : AgentSourceType) (st : State) : State :=
  let t := st_tools st in
  setTools
    match key with
    | Search => {| search := negb (search t); knowledge := knowledge t;
                   community := community t; system := system t |}
    | Knowledge => {| search := search t; knowledge := negb (knowledge t);
                      community := community t; system := system t |}
    | Community => {| search := search t; knowledge := knowledge t;
                      community := negb (community t); system := system t |}
    | System => {| search := search t; knowledge := knowledge t;
                   community := community t; system := negb (system t) |}
    end st.

Definition appendMessage (m : Message) (st : State) : State :=
  {| st_vision := st_vision st; st_tools := st_tools st;
     st_query := st_query st; st_messages := st_messages st ++ [m];
     st_loading := st_loading st; st_error := st_error st |}.

(** The [catch] block: [err instanceof Error ? err.message : "..."]. *)
Definition catchError (err : thrown) (st : State) : State :=
  setError
    (Some match err with
          | ThrownError e => message e
          | ThrownOther _ => lit "Unexpected error while contacting the agent."
          end) st.

(** The rest of [handleSubmit], once the [fetch] has settled: the [try]
    body, the [catch] and the [finally]. *)
Definition resume (uuid : jsstring) (result : FetchResult) (st : State) : State :=
  let after_try :=
    match result with
    | Rejected err => catchError err st
    | Resolved false _ =>
        catchError
          (ThrownError (Error (lit "Error")
                          (lit "The agent could not complete the request."))) st
    | Resolved true (inl err) => catchError err st
    | Resolved true (inr p) =>
        appendMessage {| msg_id := uuid; role := agent; content := summary p;
                         payload := Some p; createdAt := timestamp p |} st
    end in
  setLoading false after_try.

(** The setters [handleSubmit] queues when it goes ahead, in order
    ([setQuery("")], [setError(null)], [setLoading(true)],
    [setMessages((prev) => [...prev, userMessage])]), applied to the
    state React holds; [submission] is the text the handler trimmed. *)
Definition submitUpdates (uuid now submission : jsstring) (st : State) : State :=
  appendMessage {| msg_id := uuid; role := user; content := submission;
                   payload := None; createdAt := now |}
    (setLoading true (setError None (setQuery [] st))).

(** The page: [page] is the state React holds, every queued update
    applied; [rendered] is the state of the last render, the one the
    handlers created by that render read ([query], [loading], [vision]
    and [tools] in [handleSubmit] are those of its render); [inflight]
    are the requests sent that have not settled yet. *)
Record World : Type := {
  page : State;
  rendered : State;
  inflight : list FetchRequest
}.

Definition initialWorld : World :=
  {| page := initialState; rendered := initialState; inflight := [] |}.

Inductive action : Type :=
| Submit (uuid now : jsstring)          (* the form's [onSubmit] *)
| Change (text : jsstring)              (* [setQuery] from the textarea or an example button *)
| ChangeVision (text : jsstring)        (* [setVision], typed or restored from storage *)
| Toggle (key : AgentSourceType)        (* [handleToggle] *)
| Restore (saved : AgentToolSettings)   (* [setTools] from storage *)
| Settle (uuid : jsstring) (result : FetchResult)  (* the pending [fetch] settles *)
| Render.                               (* React renders the state it holds *)

(** One event.  A submit runs the handler of the last render: its guard,
    the text it trims and the request it builds come from [rendered],
    while its setters update the state React holds; the setters of the
    other events do not read the render. *)
Definition step (w : World) (a : action) : World :=
  match a with
  | Submit uuid now =>
      match snd (handleSubmit uuid now (rendered w)) with
      | Some r =>
          {| page := submitUpdates uuid now (trim (st_query (rendered w))) (page w);
             rendered := rendered w;
             inflight := inflight w ++ [r] |}
      | None => w
      end
  | Change text =>
      {| page := setQuery text (page w); rendered := rendered w;
         inflight := inflight w |}
  | ChangeVision text =>
      {| page := setVision text (page w); rendered := rendered w;
         inflight := inflight w |}
  | Toggle key =>
      {| page := handleToggle key (page w); rendered := rendered w;
         inflight := inflight w |}
  | Restore saved =>
      {| page := setTools saved (page w); rendered := rendered w;
         inflight := inflight w |}
  | Settle uuid result =>
      match inflight w with
      | [] => w
      | _ :: rest =>
          {| page := resume uuid result (page w); rendered := rendered w;
             inflight := rest |}
      end
  | Render =>
      {| page := page w; rendered := page w; inflight := inflight w |}
  end.

Definition run (w : World) (actions : list action) : World :=
  fold_left step actions w.

Definition reachable (w : World) : Prop :=
  exists actions, w = run initialWorld actions.

(** A run in which React re-renders before every event, so that each
    handler reads the state the previous events left. *)
Definition run_rerendered (w : World) (actions : list action) : World :=
  fold_left (fun w a => step (step w Render) a) actions w.

(** The [loading] flag counts the requests in flight. *)
Definition loading_tracks_inflight (w : World) : Prop :=
  List.length (inflight w) = if st_loading (page w) then 1 else 0.

(** The request a submit sends from world [w], if any: the handler that
    runs is the one of the last render. *)
Definition dispatched (uuid now : jsstring) (w : World) : option FetchRequest :=
  snd (handleSubmit uuid now (rendered w)).

(** [prev[key]] for a key of [AgentToolSettings]. *)
Definition toolAt (t : AgentToolSettings) (key : AgentSourceType) : bool :=
  match key with
  | Search => search t
  | Knowledge => knowledge t
  | Community => community t
  | System => system t
  end.

(** [message.role === "agent"] *)
Definition is_agent (m : Message) : bool :=
  match role m with agent => true | user => false end.


(** [messages.slice().reverse().find((message) => message.role ===
    "agent")?.payload] *)
Definition lastAgentPayload (messages : list Message) : option AgentResponse :=
  match find is_agent (rev messages) with
  | Some m => payload m
  | None => None
  end.

(** The request as the route handler meets it: [request.json()] reads
    back the object the client passed to [JSON.stringify]. *)
Definition received (r : FetchRequest) : Route.Request :=
  {| Route.json := inr (fetch_body r) |}.

(** No white space at the front, respectively at the end, of a string. *)
Definition clean_start (s : jsstring) : bool :=
  match s with [] => true | c :: _ => negb (is_white_space c) end.

Definition clean_end (s : jsstring) : bool := clean_start (rev s).

(** What the history shows of one message: a user message has no
    payload, an agent message shows the summary and the timestamp of the
    payload it carries. *)
Definition message_ok (m : Message) : Prop :=
  match role m with
  | user => payload m = None
  | agent => exists p, payload m = Some p /\ content m = summary p
                       /\ createdAt m = timestamp p
  end.

(** After typing a padded query into the fresh page, and the request a
    submit then sends. *)
Definition sampleWorld : World :=
  run initialWorld [Change (lit "  hello Brian  ")].

(** The same page once React has rendered the typed text, and after a
    first submit that no re-render has followed yet. *)
Definition shownWorld : World := step sampleWorld Render.

Definition staleWorld : World :=
  step shownWorld (Submit (lit "id-1") (lit "2024-01-01T00:00:00.000Z")).

Definition sampleFetch : FetchRequest :=
  {| fetch_url := lit "/api/agent";
     fetch_method := lit "POST";
     fetch_headers := [(lit "Content-Type", lit "application/json")];
     fetch_body :=
       VObj [ (lit "query", VStr (lit "hello Brian"));
              (lit "vision", VStr defaultVision);
              (lit "enabledTools", toolSettings_value defaultTools) ] |}.

End Page.

(* ------------------------------------------------------------------ *)
(** ** The orchestration core [lib/agent] *)
(* ------------------------------------------------------------------ *)

(** Modelled from the spec: [lib/agent], the module that exports
    [getAgentResponse], is imported by the route but is not part of the
    source tree; every definition of this module follows sections 2 to 7
    of the specification. *)
Module Core.

(** Modelled from the spec: [l.join(sep)], used by the missing core to
    build its texts. *)
Fixpoint join (sep : jsstring) (l : list jsstring) : jsstring :=
  match l with
  | [] => []
  | [x] => x
  | x :: rest => x ++ sep ++ join sep rest
  end.

(** Modelled from the spec: the decimal numeral of [n], for the ids the
    missing adapters give their sources. *)
Definition decimal (n : nat) : jsstring :=
  lit (NilZero.string_of_uint (Nat.to_uint n)).

(** Stable insertion sort: [before a b = true] when [a] may stand in
    front of [b]; on a tie the element that came first stays first. *)
Section Sorting.
Context {A : Type} (before : A -> A -> bool).

(** Modelled from the spec: the sort of the missing core puts [x] in
    front of the first element it may stand in front of. *)
Fixpoint insert (x : A) (l : list A) : list A :=
  match l with
  | [] => [x]
  | y :: l' => if before x y then x :: l else y :: insert x l'
  end.

(** Modelled from the spec: the stable sort behind the ranking of
    section 4.4 and the arrival order of section 5. *)
Definition sortBy (l : list A) : list A := fold_right insert [] l.

(** Modelled from the spec: [a] may stand in front of [b]. *)
Definition ordered (a b : A) : Prop := before a b = true.

(** Modelled from the spec: a tie; neither of [z] and [y] has to stand
    in front of the other. *)
Definition tied (z y : A) : bool := before z y && before y z.
End Sorting.

(** Modelled from the spec: the four capabilities of the glossary, in
    the order in which the dispatcher fans out. *)
Definition capabilities : list AgentSourceType :=
  [Search; Knowledge; Community; System].

(** Modelled from the spec: the name under which a capability appears in
    the diagnostics. *)
Definition tool_name (c : AgentSourceType) : jsstring :=
  match c with
  | Search => lit "search"
  | Knowledge => lit "knowledge"
  | Community => lit "community"
  | System => lit "system"
  end.

(** Modelled from the spec: equality of capabilities. *)
Definition type_eqb (a b : AgentSourceType) : bool :=
  match a, b with
  | Search, Search | Knowledge, Knowledge
  | Community, Community | System, System => true
  | _, _ => false
  end.

(** Modelled from the spec: the toggle of a capability in the request's
    [enabledTools] (data model, ToolSettings). *)
Definition enabled (t : AgentToolSettings) (c : AgentSourceType) : bool :=
  match c with
  | Search => search t
  | Knowledge => knowledge t
  | Community => community t
  | System => system t
  end.

(** Modelled from the spec: the choices section 9 leaves to the
    implementer (the keyword heuristic of the Vision Bias Extractor and
    its cap, section 4.1) and the overall request deadline of section 5,
    in the logical time of [finishTime] below. *)
Record Config : Type := {
  cfg_keyword : jsstring -> bool;
  cfg_biasCap : nat;
  cfg_deadline : nat
}.

(** Modelled from the spec: one result of a provider before its adapter
    normalizes it (section 4.3); the provider's own score is the ranking
    signal. *)
Record RawItem : Type := {
  raw_title : jsstring;
  raw_url : option jsstring;
  raw_snippet : jsstring;
  raw_score : Q
}.

(** Modelled from the spec: what a provider transport hands back to its
    adapter (section 4.3, section 7): results, an unexpected payload
    (ProviderMalformed), a failed call (ProviderUnavailable) or no answer
    within the adapter's own timeout. *)
Inductive ProviderReply : Type :=
| Results (items : list RawItem)
| Malformed
| Unavailable (cause : jsstring)
| TimedOut.

(** Modelled from the spec: everything outside the core that one request
    meets (section 5, section 6): the four provider transports as black
    boxes from the normalized query to a reply, the instant at which
    each adapter call reaches its terminal state, and the clock read by
    the Response Assembler. *)
Record Env : Type := {
  provider : AgentSourceType -> jsstring -> ProviderReply;
  finishTime : AgentSourceType -> nat;
  now : jsstring
}.

(** *** 4.1 Vision Bias Extractor *)

(** Modelled from the spec: part of the missing extractor; a finished,
    non-empty run of code units is a word. *)
Definition flush (cur : jsstring) : list jsstring :=
  match cur with [] => [] | _ :: _ => [cur] end.

(** Modelled from the spec: part of the missing extractor; the maximal
    runs of non-whitespace code units of [s], in order, [cur] being the
    run that is read. *)
Fixpoint words_from (cur : jsstring) (s : jsstring) : list jsstring :=
  match s with
  | [] => flush cur
  | c :: s' =>
      if is_white_space c then flush cur ++ words_from [] s'
      else words_from (cur ++ [c]) s'
  end.

(** Modelled from the spec: part of the missing extractor; the words of
    the vision text. *)
Definition words (s : jsstring) : list jsstring := words_from [] s.

(** Modelled from the spec: part of the missing extractor (section 4.1,
    de-duplicated); keeps the first occurrence of every word. *)
Fixpoint dedupe (seen : list jsstring) (l : list jsstring) : list jsstring :=
  match l with
  | [] => []
  | w :: l' =>
      if existsb (jsstring_eqb w) seen then dedupe seen l'
      else w :: dedupe (w :: seen) l'
  end.

(** Modelled from the spec: the Vision Bias Extractor of section 4.1,
    whose source is missing: an ordered, de-duplicated sequence of
    keywords of the vision text, bounded by the cap. *)
Definition extractVisionBias (cfg : Config) (visionText : jsstring) : list jsstring :=
  firstn (cfg_biasCap cfg)
         (dedupe [] (filter (cfg_keyword cfg) (words visionText))).

(** *** 4.3 Provider Adapter *)

(** Modelled from the spec: the outcome tags of section 4.2
    (ok/empty/error/timeout); the dispatcher's source is missing. *)
Inductive OutcomeTag : Type := TagOk | TagEmpty | TagError | TagTimeout.

(** Modelled from the spec: the text of an outcome tag (section 4.2). *)
Definition tag_name (t : OutcomeTag) : jsstring :=
  match t with
  | TagOk => lit "ok"
  | TagEmpty => lit "empty"
  | TagError => lit "error"
  | TagTimeout => lit "timeout"
  end.

(** Modelled from the spec: the per-invocation result of section 4.2,
    absent from the sources: a possibly empty sequence of sources, or a
    failure reason (a timeout being a failure). *)
Inductive AdapterResult : Type :=
| Succeeded (found : list AgentSource)
| Failed (timeout : bool) (reason : jsstring).

(** Modelled from the spec: the composition rule of the missing
    adapters (section 4.3): the query followed by the bias keywords. *)
Definition normalizedQuery (q : jsstring) (bias : list jsstring) : jsstring :=
  join (lit " ") (q :: bias).

(** Modelled from the spec: the missing adapters keep [confidence]
    within [0,1] (data model, Source). *)
Definition clamp01 (x : Q) : Q :=
  if Qle_bool x 0 then 0%Q else if Qle_bool 1 x then 1%Q else x.

(** Modelled from the spec: part of the missing adapter; one raw item
    as a [Source] of the adapter's own type, with an id unique within
    the response. *)
Definition toSource (c : AgentSourceType) (i : nat) (item : RawItem) : AgentSource :=
  {| src_id := tool_name c ++ lit "-" ++ decimal i;
     src_type := c;
     src_title := raw_title item;
     src_url := raw_url item;
     src_snippet := raw_snippet item;
     src_confidence := clamp01 (raw_score item);
     src_metadata := None |}.

(** Modelled from the spec: part of the missing adapter; the raw items
    numbered from [i]. *)
Fixpoint toSources (c : AgentSourceType) (i : nat) (items : list RawItem)
  : list AgentSource :=
  match items with
  | [] => []
  | item :: rest => toSource c i item :: toSources c (S i) rest
  end.

(** Modelled from the spec: the Provider Adapter of section 4.3, whose
    source is missing: sources tagged with the adapter's own type, zero
    results being a success, anything else a recorded failure. *)
Definition adapter (c : AgentSourceType) (reply : ProviderReply) : AdapterResult :=
  match reply with
  | Results items => Succeeded (toSources c 0 items)
  | Malformed => Failed false (lit "malformed provider response")
  | Unavailable cause => Failed false cause
  | TimedOut => Failed true (lit "timeout")
  end.

(** *** 4.2 Tool Dispatcher *)

(** Modelled from the spec: the capabilities the missing dispatcher
    calls (section 4.2): the enabled ones. *)
Definition selected (t : AgentToolSettings) : list AgentSourceType :=
  filter (enabled t) capabilities.

(** Modelled from the spec: the order in which the enabled adapters of
    the missing dispatcher reach their terminal state (section 5: in any
    order). *)
Definition arrival (env : Env) (t : AgentToolSettings) : list AgentSourceType :=
  sortBy (fun a b => finishTime env a <=? finishTime env b) (selected t).

(** Modelled from the spec: the terminal state of one adapter call of
    the missing dispatcher: past the overall deadline of section 5 the
    call is abandoned and counts as timed out. *)
Definition outcome (cfg : Config) (env : Env) (q : jsstring) (c : AgentSourceType)
  : AdapterResult :=
  if cfg_deadline cfg <? finishTime env c
  then Failed true (lit "timeout")
  else adapter c (provider env c q).

(** Modelled from the spec: the tag the missing dispatcher records
    for a terminal state (section 4.2). *)
Definition outcome_tag (r : AdapterResult) : OutcomeTag :=
  match r with
  | Succeeded [] => TagEmpty
  | Succeeded (_ :: _) => TagOk
  | Failed true _ => TagTimeout
  | Failed false _ => TagError
  end.

(** Modelled from the spec: what a terminal state contributes to the
    merged sources of the missing dispatcher. *)
Definition found_sources (r : AdapterResult) : list AgentSource :=
  match r with
  | Succeeded found => found
  | Failed _ _ => []
  end.

(** Modelled from the spec: one [toolTrace] record of the missing
    Diagnostics Recorder (section 4.5): which tool, which outcome. *)
Record ToolRecord : Type := { tool : AgentSourceType; tag : OutcomeTag }.

(** Modelled from the spec: the [toolTrace] line of a record: tool name
    and outcome tag (section 4.2). *)
Definition traceLine (r : ToolRecord) : jsstring :=
  tool_name (tool r) ++ lit ":" ++ tag_name (tag r).

(** Modelled from the spec: [line.startsWith(p)], to read a trace line
    of the missing recorder. *)
Fixpoint startsWith (p line : jsstring) : bool :=
  match p, line with
  | [], _ => true
  | x :: p', y :: line' => (x =? y)%N && startsWith p' line'
  | _ :: _, [] => false
  end.

(** Modelled from the spec: reading a [toolTrace] line of the missing
    recorder back: the line is a record of tool [c]. *)
Definition names_tool (c : AgentSourceType) (line : jsstring) : bool :=
  startsWith (tool_name c ++ lit ":") line.

(** Modelled from the spec: the record the missing dispatcher writes
    for the terminal state of tool [c]. *)
Definition record_of (cfg : Config) (env : Env) (nq : jsstring)
  (c : AgentSourceType) : ToolRecord :=
  {| tool := c; tag := outcome_tag (outcome cfg env nq c) |}.

(** Modelled from the spec: the [diagnostics.errors] entry of a failed
    call, naming the tool and the cause (section 4.2). *)
Definition errorLines (c : AgentSourceType) (r : AdapterResult) : list jsstring :=
  match r with
  | Succeeded _ => []
  | Failed _ reason => [tool_name c ++ lit " " ++ reason]
  end.

(** Modelled from the spec: what the missing dispatcher hands on: the
    provider calls it made, the trace records, the merged sources, the
    error entries and its diagnostic step. *)
Record Dispatch : Type := {
  d_calls : list (AgentSourceType * jsstring);
  d_records : list ToolRecord;
  d_sources : list AgentSource;
  d_errors : list jsstring;
  d_step : jsstring
}.

(** Modelled from the spec: the diagnostic step of section 4.2 for a
    request without enabled capability. *)
Definition noToolsStep : jsstring :=
  lit "No tools were selected; nothing was dispatched.".

(** Modelled from the spec: the Tool Dispatcher of section 4.2, whose
    source is missing: one adapter call per enabled capability, none for
    a disabled one; every terminal state recorded in the order reached;
    the sources of the successful adapters concatenated. *)
Definition dispatch (cfg : Config) (env : Env) (q : jsstring)
  (bias : list jsstring) (t : AgentToolSettings) : Dispatch :=
  let nq := normalizedQuery q bias in
  let settled := map (fun c => (c, outcome cfg env nq c)) (arrival env t) in
  {| d_calls := map (fun c => (c, nq)) (selected t);
     d_records :=
       map (fun '(c, r) => {| tool := c; tag := outcome_tag r |}) settled;
     d_sources := flat_map (fun '(c, r) => found_sources r) settled;
     d_errors := flat_map (fun '(c, r) => errorLines c r) settled;
     d_step :=
       match selected t with
       | [] => noToolsStep
       | sel => lit "Dispatched tools: " ++ join (lit ", ") (map tool_name sel)
       end |}.

(** *** 4.4 Synthesizer *)

(** Modelled from the spec: the fixed capability priority of section
    4.4, as in its example: knowledge, search, community, system. *)
Definition priority (c : AgentSourceType) : nat :=
  match c with
  | Knowledge => 0
  | Search => 1
  | Community => 2
  | System => 3
  end.

(** Modelled from the spec: the ranking policy of section 4.4, whose
    source is missing: [a] ranks before [b] on a higher confidence, then
    on the capability priority. *)
Definition ranks_before (a b : AgentSource) : bool :=
  match (src_confidence a ?= src_confidence b)%Q with
  | Gt => true
  | Eq => priority (src_type a) <=? priority (src_type b)
  | Lt => false
  end.

(** Modelled from the spec: the ranking policy of section 4.4 as a
    relation. *)
Definition ranked (a b : AgentSource) : Prop :=
  (src_confidence b < src_confidence a)%Q
  \/ ((src_confidence a == src_confidence b)%Q
      /\ priority (src_type a) <= priority (src_type b)).

(** Modelled from the spec: a full tie of section 4.4: neither
    confidence nor priority separates [a] and [b]. *)
Definition tie (a b : AgentSource) : bool :=
  tied ranks_before a b.

(** Modelled from the spec: the re-ranking of the missing Synthesizer
    (section 4.4): a stable sort, so that full ties keep their arrival
    order. *)
Definition rank (merged : list AgentSource) : list AgentSource :=
  sortBy ranks_before merged.

(** Modelled from the spec: part of the missing Synthesizer; capability
    [c] has a source among the ranked ones. *)
Definition contributed (ranked : list AgentSource) (c : AgentSourceType) : bool :=
  existsb (fun s => type_eqb (src_type s) c) ranked.

(** Modelled from the spec: the plan step of the missing Synthesizer
    for a capability that returned results (section 4.4; the playbook
    step is the local-first action). *)
Definition capabilityStep (c : AgentSourceType) : jsstring :=
  match c with
  | Knowledge => lit "Read the reference articles to settle terms and background."
  | Search => lit "Review the top search results and keep the ones that match the goal."
  | Community => lit "Scan the community discussions for field reports and pitfalls."
  | System => lit "Run the local-first playbook steps on your own machine."
  end.

(** Modelled from the spec: the diagnostic step of section 4.4 for an
    empty merged source list. *)
Definition noSourcesStep : jsstring :=
  lit "No external sources were available; synthesized from the query and vision alone.".

(** Modelled from the spec: the summary of the missing Synthesizer
    (section 4.4), from the query and the top-ranked sources. *)
Definition synthSummary (q : jsstring) (bias : list jsstring)
  (ranked : list AgentSource) : jsstring :=
  match ranked with
  | [] => lit "No external sources were available for: " ++ q
  | _ :: _ =>
      lit "Findings for: " ++ q ++ lit " -- "
        ++ join (lit "; ") (map src_title (firstn 3 ranked))
  end.

(** Modelled from the spec: the plan of the missing Synthesizer
    (section 4.4): a goal step carrying the vision bias, one step per
    capability that returned results, two closing steps. *)
Definition synthPlan (q : jsstring) (bias : list jsstring)
  (ranked : list AgentSource) : list jsstring :=
  [ match bias with
    | [] => lit "Clarify the goal: " ++ q
    | _ :: _ =>
        lit "Clarify the goal: " ++ q
          ++ lit " (guided by: " ++ join (lit ", ") bias ++ lit ")"
    end ]
  ++ map capabilityStep
       (filter (contributed ranked) [Knowledge; Search; Community; System])
  ++ [ lit "Draft the plan from the gathered signals and carry out its first step.";
       lit "Review the outcome against the goal and iterate." ].

(** *** 4.5 Diagnostics Recorder, 4.6 Response Assembler *)

(** Modelled from the spec: an optional field of the missing recorder
    ([errors] is absent when nothing failed). *)
Definition optional (l : list jsstring) : option (list jsstring) :=
  match l with [] => None | _ :: _ => Some l end.

(** Modelled from the spec: the bias keywords the missing pipeline
    works with: none without a vision text. *)
Definition requestBias (cfg : Config) (req : AgentRequestPayload) : list jsstring :=
  match req_vision req with
  | Some v => extractVisionBias cfg v
  | None => []
  end.

(** Modelled from the spec: the pipeline of section 2 (extractor,
    dispatcher, synthesizer, assembler, with the diagnostics threaded
    through), whose source [lib/agent] is missing; the provider calls
    made on the way are returned beside the response. *)
Definition orchestrate (cfg : Config) (env : Env) (req : AgentRequestPayload)
  : AgentResponse * list (AgentSourceType * jsstring) :=
  let bias := requestBias cfg req in
  let d := dispatch cfg env (req_query req) bias (req_enabledTools req) in
  let ranked := rank (d_sources d) in
  ({| query := req_query req;
      vision := req_vision req;
      timestamp := now env;
      summary := synthSummary (req_query req) bias ranked;
      plan := synthPlan (req_query req) bias ranked;
      sources := ranked;
      diagnostics :=
        {| steps :=
             [ match bias with
               | [] => lit "No vision bias extracted."
               | _ :: _ => lit "Extracted vision bias: " ++ join (lit ", ") bias
               end;
               d_step d ]
             ++ match ranked with [] => [noSourcesStep] | _ :: _ => [] end
             ++ [ lit "Synthesized summary and plan." ];
           toolTrace := map traceLine (d_records d);
           visionBias := option_map (extractVisionBias cfg) (req_vision req);
           errors := optional (d_errors d) |} |},
   d_calls d).

(** Modelled from the spec: [getAgentResponse] of the missing
    [lib/agent]: the response of the pipeline. *)
Definition getAgentResponse (cfg : Config) (env : Env) (req : AgentRequestPayload)
  : AgentResponse :=
  fst (orchestrate cfg env req).

(** Modelled from the spec: the argument object that carries a typed
    request to the missing [getAgentResponse]. *)
Definition args_of (req : AgentRequestPayload) : Route.CoreArgs :=
  {| Route.arg_query := VStr (req_query req);
     Route.arg_vision :=
       match req_vision req with Some v => VStr v | None => VUndefined end;
     Route.arg_enabledTools := toolSettings_value (req_enabledTools req) |}.

(** Modelled from the spec: the request body that carries a typed
    request of section 3 (what [JSON.stringify] of the client sends: an
    absent [vision] is left out). *)
Definition body_of (req : AgentRequestPayload) : value :=
  VObj ( [ (lit "query", VStr (req_query req)) ]
         ++ match req_vision req with
            | Some v => [ (lit "vision", VStr v) ]
            | None => []
            end
         ++ [ (lit "enabledTools", toolSettings_value (req_enabledTools req)) ] ).

(** Modelled from the spec: the missing [getAgentResponse] as the
    boundary sees it: on the arguments of a typed request it answers as
    the pipeline does. *)
Definition implements (cfg : Config) (env : Env)
  (core : Route.CoreArgs -> error + AgentResponse) : Prop :=
  forall req, core (args_of req) = inr (getAgentResponse cfg env req).

End Core.

(* ------------------------------------------------------------------ *)
(** ** Concrete inputs used by the examples below *)
(* ------------------------------------------------------------------ *)

Module Samples.
Import Route Core.

Definition allEnabled : AgentToolSettings :=
  {| search := true; knowledge := true; community := true; system := true |}.

Definition allDisabled : AgentToolSettings :=
  {| search := false; knowledge := false; community := false; system := false |}.

(** Words of more than three code units count as keywords; at most
    eight are kept; the deadline is at instant 100. *)
Definition sampleConfig : Config :=
  {| cfg_keyword := fun w => 3 <? List.length w;
     cfg_biasCap := 8;
     cfg_deadline := 100 |}.

Definition item (title : string) (score : Q) : RawItem :=
  {| raw_title := lit title; raw_url := None;
     raw_snippet := lit "snippet"; raw_score := score |}.

(** Search and community answer, knowledge times out, the playbook
    corpus has two entries. *)
Definition sampleProvider (c : AgentSourceType) (q : jsstring) : ProviderReply :=
  match c with
  | Search => Results [item "s1" (1#2); item "s2" (9#10)]
  | Knowledge => TimedOut
  | Community => Results [item "c1" (1#2)]
  | System => Results [item "p1" (1#2); item "p2" (1#2)]
  end.

Definition sampleEnv : Env :=
  {| provider := sampleProvider;
     finishTime := fun c => match c with
                            | Search => 30 | Knowledge => 60
                            | Community => 10 | System => 20
                            end;
     now := lit "2024-01-01T00:00:00.000Z" |}.

(** The same providers, finishing in another order. *)
Definition sampleEnv' : Env :=
  {| provider := sampleProvider;
     finishTime := fun c => match c with
                            | Search => 1 | Knowledge => 2
                            | Community => 3 | System => 4
                            end;
     now := lit "2024-06-30T12:00:00.000Z" |}.

Definition sampleRequest : AgentRequestPayload :=
  {| req_query := lit "plan a local voice assistant";
     req_vision := Some (lit "privacy-first Ubuntu");
     req_enabledTools := allEnabled |}.

Definition scenarioB : AgentRequestPayload :=
  {| req_query := lit "x"; req_vision := None; req_enabledTools := allDisabled |}.

(** Reading a typed request back from the argument object. *)
Definition bool_of (v : value) : option bool :=
  match v with VBool b => Some b | _ => None end.

Definition decode_tools (v : value) : option AgentToolSettings :=
  match bool_of (get v (lit "search")), bool_of (get v (lit "knowledge")),
        bool_of (get v (lit "community")), bool_of (get v (lit "system")) with
  | Some a, Some b, Some c, Some d =>
      Some {| search := a; knowledge := b; community := c; system := d |}
  | _, _, _, _ => None
  end.

Definition decode_args (a : CoreArgs) : option AgentRequestPayload :=
  match arg_query a, decode_tools (arg_enabledTools a) with
  | VStr q, Some t =>
      match arg_vision a with
      | VStr v => Some {| req_query := q; req_vision := Some v; req_enabledTools := t |}
      | VUndefined => Some {| req_query := q; req_vision := None; req_enabledTools := t |}
      | _ => None
      end
  | _, _ => None
  end.

(** A core that runs the pipeline on well-typed arguments and rejects
    the others. *)
Definition sampleCore (a : CoreArgs) : error + AgentResponse :=
  match decode_args a with
  | Some req => inr (getAgentResponse sampleConfig sampleEnv req)
  | None => inl (Error (lit "TypeError") (lit "unexpected argument shape"))
  end.

(** A core that always rejects. *)
Definition failingCore (a : CoreArgs) : error + AgentResponse :=
  inl (Error (lit "Error") (lit "internal detail")).

(** A body whose query is three spaces. *)
Definition blankBody : value := VObj [(lit "query", VStr (lit "   "))].

(** The page after one question has been asked and answered. *)
Definition sampleAnswer : AgentResponse :=
  getAgentResponse sampleConfig sampleEnv scenarioB.

Definition answeredActions : list Page.action :=
  [ Page.Change (lit "x");
    Page.Render;
    Page.Submit (lit "id-1") (lit "2024-01-01T00:00:00.000Z");
    Page.Settle (lit "id-2") (Page.Resolved true (inr sampleAnswer)) ].

Definition answeredWorld : Page.World :=
  Page.run Page.initialWorld answeredActions.

Definition syntaxError : error :=
  Error (lit "SyntaxError") (lit "Unexpected token < in JSON at position 0").

End Samples.

(* ================================================================== *)
(** * Properties *)
(* ================================================================== *)

(* ------------------------------------------------------------------ *)
(** ** The request boundary *)
(* ------------------------------------------------------------------ *)

Module RouteFacts.
Import Route Core Samples.

Lemma truthy_not_nullish v k :
  truthy (opt_member v k) = true -> nullish v = false.
Proof.
  unfold opt_member. destruct (nullish v); [discriminate | reflexivity].
Qed.

Lemma handle_unparsable core e :
  handle core {| json := inl e |}
  = (inr serverError, [ConsoleError (lit "Agent handler failed") e]).
Proof. reflexivity. Qed.

Lemma handle_rejected core v :
  truthy (opt_member v (lit "query")) = false ->
  handle core {| json := inr v |} = (inr badRequest, []).
Proof.
  intros H. unfold handle, POST, try_catch, bind, request_json.
  cbn [json ret]. rewrite H. reflexivity.
Qed.

Lemma handle_accepted core v :
  truthy (opt_member v (lit "query")) = true ->
  handle core {| json := inr v |}
  = match core (args_from v) with
    | inr r => (inr (ok r), [CoreCall (args_from v)])
    | inl e => (inr serverError,
                [CoreCall (args_from v);
                 ConsoleError (lit "Agent handler failed") e])
    end.
Proof.
  intros H. pose proof (truthy_not_nullish _ _ H) as Hn.
  unfold handle, POST, try_catch, bind, request_json, member,
    await_getAgentResponse, console_error, emit.
  cbn [json ret]. rewrite H, Hn. cbn [negb ret app].
  fold (args_from v). destruct (core (args_from v)); reflexivity.
Qed.

(** C1, as stated, fails: a query of three spaces is empty once trimmed,
    yet the handler forwards it to the core and answers 200. *)
Lemma blank_query_reaches_core :
  query_blank blankBody = true /\
  (exists r, fst (handle sampleCore {| json := inr blankBody |}) = inr r
             /\ status r = 200) /\
  core_calls (snd (handle sampleCore {| json := inr blankBody |}))
  = [args_from blankBody].
Proof.
  split; [reflexivity | split].
  - rewrite handle_accepted by reflexivity.
    destruct (sampleCore (args_from blankBody)) eqn:E; [discriminate E |].
    eexists; split; reflexivity.
  - rewrite handle_accepted by reflexivity.
    destruct (sampleCore (args_from blankBody)); reflexivity.
Qed.

(** C1, amended: a request whose parsed body has no [query], or whose
    [query] is the empty string or any other falsy value (the handler
    tests [!payload?.query] and does not trim), is answered with HTTP 400
    and [getAgentResponse] is not invoked. *)
Theorem falsy_query_rejected core v :
  opt_member v (lit "query") = VUndefined
  \/ opt_member v (lit "query") = VStr []
  \/ truthy (opt_member v (lit "query")) = false ->
  fst (handle core {| json := inr v |}) = inr badRequest /\
  status badRequest = 400 /\
  core_calls (snd (handle core {| json := inr v |})) = [].
Proof.
  intros H.
  assert (Hf : truthy (opt_member v (lit "query")) = false).
  { destruct H as [H | [H | H]]; [rewrite H .. | exact H]; reflexivity. }
  rewrite (handle_rejected core v Hf). repeat split.
Qed.

Lemma falsy_query_rejected_witness :
  fst (handle sampleCore {| json := inr (VObj [(lit "vision", VStr (lit "v"))]) |})
  = inr badRequest /\
  status badRequest = 400 /\
  core_calls
    (snd (handle sampleCore {| json := inr (VObj [(lit "vision", VStr (lit "v"))]) |}))
  = [].
Proof.
  apply (falsy_query_rejected sampleCore (VObj [(lit "vision", VStr (lit "v"))])).
  left. reflexivity.
Defined.

(** C9, as stated, fails: a body that is not JSON is answered with the
    status 500, not with a client error. *)
Lemma invalid_json_is_not_client_error :
  exists r, fst (handle sampleCore {| json := inl syntaxError |}) = inr r
            /\ status r = 500 /\ status r <> 400.
Proof.
  eexists; split; [reflexivity | split; [reflexivity | discriminate]].
Qed.

(** C9, amended: when the body is not valid JSON, [request.json()]
    rejects inside the [try]; the handler logs the error, answers with the
    generic server error (HTTP 500) and never invokes the core. *)
Theorem invalid_json_generic_server_error core e :
  handle core {| json := inl e |}
  = (inr serverError, [ConsoleError (lit "Agent handler failed") e]) /\
  status serverError = 500 /\
  core_calls (snd (handle core {| json := inl e |})) = [].
Proof. repeat split. Qed.

(** C5: when the body has no [enabledTools], every call of the core made
    by the handler carries all four capabilities enabled, and an accepted
    request makes exactly one such call. *)
Theorem omitted_enabledTools_all_enabled core v :
  get v (lit "enabledTools") = VUndefined ->
  (forall a, In a (core_calls (snd (handle core {| json := inr v |}))) ->
             arg_enabledTools a = toolSettings_value allEnabled) /\
  (truthy (opt_member v (lit "query")) = true ->
   core_calls (snd (handle core {| json := inr v |})) = [args_from v] /\
   arg_enabledTools (args_from v) = toolSettings_value allEnabled).
Proof.
  intros Hno.
  assert (Ha : arg_enabledTools (args_from v) = toolSettings_value allEnabled).
  { unfold args_from. cbn [arg_enabledTools]. rewrite Hno. reflexivity. }
  assert (Hc : truthy (opt_member v (lit "query")) = true ->
               core_calls (snd (handle core {| json := inr v |})) = [args_from v]).
  { intros Ht. rewrite (handle_accepted core v Ht).
    destruct (core (args_from v)); reflexivity. }
  split.
  - intros a Hin.
    destruct (truthy (opt_member v (lit "query"))) eqn:Ht.
    + rewrite (Hc eq_refl) in Hin. destruct Hin as [<- | []]. exact Ha.
    + rewrite (handle_rejected core v Ht) in Hin. destruct Hin.
  - intros Ht. split; [exact (Hc Ht) | exact Ha].
Qed.

Lemma omitted_enabledTools_all_enabled_witness :
  core_calls (snd (handle sampleCore {| json := inr blankBody |}))
  = [args_from blankBody] /\
  arg_enabledTools (args_from blankBody) = toolSettings_value allEnabled.
Proof.
  apply (omitted_enabledTools_all_enabled sampleCore blankBody);
    reflexivity.
Defined.

End RouteFacts.

(* ------------------------------------------------------------------ *)
(** ** Stable insertion sort *)
(* ------------------------------------------------------------------ *)

Section SortFacts.
Import Core.
Context {A : Type} (before : A -> A -> bool).

Lemma insert_perm x l : Permutation (x :: l) (insert before x l).
Proof.
  induction l as [| y l IH]; cbn [insert]; [reflexivity |].
  destruct (before x y); [reflexivity |].
  rewrite perm_swap. now constructor.
Qed.

Lemma sortBy_perm l : Permutation l (sortBy before l).
Proof.
  induction l as [| x l IH]; cbn; [constructor |].
  rewrite <- insert_perm. now constructor.
Qed.

Hypothesis before_total : forall a b, before a b = false -> before b a = true.
Hypothesis before_trans :
  forall a b c, before a b = true -> before b c = true -> before a c = true.

Lemma before_refl a : before a a = true.
Proof.
  destruct (before a a) eqn:E; [reflexivity |].
  pose proof (before_total _ _ E). congruence.
Qed.

Lemma insert_sorted x l :
  StronglySorted (ordered before) l -> StronglySorted (ordered before) (insert before x l).
Proof.
  induction 1 as [| y l Hs IH Hy]; cbn [insert].
  - repeat constructor.
  - destruct (before x y) eqn:E.
    + constructor; [now constructor |].
      constructor; [exact E |].
      eapply Forall_impl; [| exact Hy]. intros b Hb.
      exact (before_trans _ _ _ E Hb).
    + constructor; [exact IH |].
      apply (Permutation_Forall (insert_perm x l)).
      constructor; [exact (before_total _ _ E) | exact Hy].
Qed.

Lemma sortBy_sorted l : StronglySorted (ordered before) (sortBy before l).
Proof.
  induction l as [| x l IH]; cbn; [constructor | now apply insert_sorted].
Qed.

(** Stability: the elements tied with [z] keep their relative order. *)
Lemma insert_stable z x l :
  filter (tied before z) (insert before x l) = filter (tied before z) (x :: l).
Proof.
  induction l as [| y l IH]; cbn [insert]; [reflexivity |].
  destruct (before x y) eqn:E; [reflexivity |].
  cbn [filter] in *. rewrite IH.
  destruct (tied before z x) eqn:Ex, (tied before z y) eqn:Ey; try reflexivity.
  exfalso. unfold tied in Ex, Ey.
  apply andb_true_iff in Ex as [_ Hxz], Ey as [Hzy _].
  rewrite (before_trans _ _ _ Hxz Hzy) in E. discriminate.
Qed.

Lemma sortBy_stable z l :
  filter (tied before z) (sortBy before l) = filter (tied before z) l.
Proof.
  induction l as [| x l IH]; cbn [sortBy fold_right]; [reflexivity |].
  fold (sortBy before l). rewrite insert_stable. cbn [filter].
  now rewrite IH.
Qed.

Lemma tied_trans_l a b y : tied before a b = true -> tied before a y = tied before b y.
Proof.
  unfold tied. intros H. apply andb_true_iff in H as [Hab Hba].
  destruct (before b y) eqn:E1, (before y b) eqn:E2; cbn.
  - now rewrite (before_trans _ _ _ Hab E1), (before_trans _ _ _ E2 Hba).
  - destruct (before y a) eqn:E3; [| apply andb_false_r].
    now rewrite (before_trans _ _ _ E3 Hab) in E2.
  - destruct (before a y) eqn:E3; [| reflexivity].
    now rewrite (before_trans _ _ _ Hba E3) in E1.
  - destruct (before a y) eqn:E3; [| reflexivity].
    now rewrite (before_trans _ _ _ Hba E3) in E1.
Qed.

(** A sorted list is determined by the order inside its tie classes. *)
Lemma sorted_determined l1 :
  forall l2,
    StronglySorted (ordered before) l1 -> StronglySorted (ordered before) l2 ->
    (forall z, filter (tied before z) l1 = filter (tied before z) l2) ->
    l1 = l2.
Proof.
  induction l1 as [| a l1 IH]; intros l2 H1 H2 Hf.
  - destruct l2 as [| b l2]; [reflexivity |].
    specialize (Hf b). cbn in Hf. unfold tied at 1 in Hf.
    rewrite before_refl in Hf. discriminate.
  - destruct l2 as [| b l2].
    + specialize (Hf a). cbn in Hf. unfold tied at 1 in Hf.
      rewrite before_refl in Hf. discriminate.
    + inversion H1 as [| ? ? Hs1 Ha]; subst.
      inversion H2 as [| ? ? Hs2 Hb]; subst.
      assert (Haa : tied before a a = true) by (unfold tied; now rewrite before_refl).
      assert (Hbb : tied before b b = true) by (unfold tied; now rewrite before_refl).
      assert (Hab : before a b = true).
      { pose proof (Hf b) as Hfb. cbn [filter] in Hfb. rewrite Hbb in Hfb.
        destruct (tied before b a) eqn:E.
        - unfold tied in E. now apply andb_true_iff in E as [_ ?].
        - assert (Hin : In b (filter (tied before b) l1))
            by (rewrite Hfb; now left).
          apply filter_In in Hin as [Hin _].
          rewrite Forall_forall in Ha. now apply Ha. }
      assert (Hba : before b a = true).
      { pose proof (Hf a) as Hfa. cbn [filter] in Hfa. rewrite Haa in Hfa.
        destruct (tied before a b) eqn:E.
        - unfold tied in E. now apply andb_true_iff in E as [_ ?].
        - assert (Hin : In a (filter (tied before a) l2))
            by (rewrite <- Hfa; now left).
          apply filter_In in Hin as [Hin _].
          rewrite Forall_forall in Hb. now apply Hb. }
      assert (Hs : tied before a b = true) by (unfold tied; now rewrite Hab, Hba).
      pose proof (Hf a) as Hfa. cbn [filter] in Hfa. rewrite Haa, Hs in Hfa.
      injection Hfa as <- Htl. f_equal.
      apply IH; [assumption .. |].
      intros z. destruct (tied before z a) eqn:E.
      * rewrite !(filter_ext (tied before z) (tied before a)
                    (fun y => tied_trans_l z a y E)).
        exact Htl.
      * specialize (Hf z). cbn [filter] in Hf. now rewrite E in Hf.
Qed.

End SortFacts.

(* ------------------------------------------------------------------ *)
(** ** The orchestration core *)
(* ------------------------------------------------------------------ *)

Module CoreFacts.
Import Route Core Samples.

(** *** Ranking order *)

Lemma ranks_before_total a b :
  ranks_before a b = false -> ranks_before b a = true.
Proof.
  unfold ranks_before. rewrite <- (Qcompare_antisym (src_confidence a)).
  destruct (src_confidence a ?= src_confidence b)%Q; cbn;
    [| reflexivity | discriminate].
  intros H. apply Nat.leb_gt in H. apply Nat.leb_le. lia.
Qed.

Lemma ranks_before_trans a b c :
  ranks_before a b = true -> ranks_before b c = true ->
  ranks_before a c = true.
Proof.
  unfold ranks_before.
  destruct (Qcompare_spec (src_confidence a) (src_confidence b)) as [E1|E1|E1];
  destruct (Qcompare_spec (src_confidence b) (src_confidence c)) as [E2|E2|E2];
  destruct (Qcompare_spec (src_confidence a) (src_confidence c)) as [E3|E3|E3];
    intros H1 H2; try discriminate; try reflexivity; try (exfalso; lra).
  apply Nat.leb_le. apply Nat.leb_le in H1, H2. lia.
Qed.

Lemma priority_inj c1 c2 : priority c1 = priority c2 -> c1 = c2.
Proof. destruct c1, c2; cbn; congruence. Qed.

(** Fully tied sources have equal confidence and come from the same
    capability. *)
Lemma tie_spec a b :
  tie a b = true ->
  (src_confidence a == src_confidence b)%Q /\ src_type a = src_type b.
Proof.
  unfold tie, tied, ranks_before.
  rewrite <- (Qcompare_antisym (src_confidence a)).
  destruct (Qcompare_spec (src_confidence a) (src_confidence b)) as [E|E|E];
    cbn; intros H; try discriminate.
  apply andb_true_iff in H as [H1 H2].
  split; [exact E |]. apply priority_inj.
  apply Nat.leb_le in H1, H2. lia.
Qed.

(** *** Selection and arrival *)

Lemma selected_NoDup t : NoDup (selected t).
Proof.
  apply NoDup_filter. unfold capabilities.
  repeat constructor; cbn; intuition discriminate.
Qed.

Lemma arrival_perm env t : Permutation (selected t) (arrival env t).
Proof. apply sortBy_perm. Qed.

Lemma arrival_NoDup env t : NoDup (arrival env t).
Proof.
  eapply Permutation_NoDup; [apply arrival_perm | apply selected_NoDup].
Qed.

Lemma in_selected t c : In c (selected t) <-> enabled t c = true.
Proof.
  unfold selected. rewrite filter_In. split; [tauto |].
  intros H; split; [| exact H]. destruct c; cbn; tauto.
Qed.

Lemma in_arrival env t c : In c (arrival env t) <-> enabled t c = true.
Proof.
  rewrite <- in_selected. split; apply Permutation_in;
    [symmetry |]; apply arrival_perm.
Qed.

Lemma selected_allDisabled t :
  search t = false -> knowledge t = false ->
  community t = false -> system t = false ->
  selected t = [].
Proof.
  intros H1 H2 H3 H4. unfold selected, capabilities. cbn.
  now rewrite H1, H2, H3, H4.
Qed.

(** *** Adapters tag their sources with their own type *)

Lemma toSources_type c items : forall i,
  Forall (fun s => src_type s = c) (toSources c i items).
Proof.
  induction items as [| it items IH]; intros i; cbn; constructor;
    [reflexivity | apply IH].
Qed.

Lemma outcome_type cfg env q c :
  Forall (fun s => src_type s = c) (found_sources (outcome cfg env q c)).
Proof.
  unfold outcome. destruct (cfg_deadline cfg <? finishTime env c);
    [constructor |].
  destruct (provider env c q); cbn; try constructor. apply toSources_type.
Qed.

(** *** The dispatcher's records *)

Lemma d_records_eq cfg env q bias t :
  d_records (dispatch cfg env q bias t)
  = map (record_of cfg env (normalizedQuery q bias)) (arrival env t).
Proof. unfold dispatch; cbn [d_records]. now rewrite map_map. Qed.

Lemma flat_map_map {X Y Z} (f : Y -> list Z) (g : X -> Y) l :
  flat_map f (map g l) = flat_map (fun x => f (g x)) l.
Proof. induction l as [| x l IH]; cbn; [reflexivity | now rewrite IH]. Qed.

Lemma d_sources_eq cfg env q bias t :
  d_sources (dispatch cfg env q bias t)
  = flat_map (fun c => found_sources (outcome cfg env (normalizedQuery q bias) c))
             (arrival env t).
Proof.
  unfold dispatch; cbn [d_sources].
  exact (flat_map_map (fun '(c, r) => found_sources r) _ _).
Qed.

Lemma d_errors_eq cfg env q bias t :
  d_errors (dispatch cfg env q bias t)
  = flat_map (fun c => errorLines c (outcome cfg env (normalizedQuery q bias) c))
             (arrival env t).
Proof.
  unfold dispatch; cbn [d_errors].
  exact (flat_map_map (fun '(c, r) => errorLines c r) _ _).
Qed.

Lemma type_eqb_eq a b : type_eqb a b = true <-> a = b.
Proof. destruct a, b; cbn; split; congruence. Qed.

Lemma names_tool_traceLine c r :
  names_tool c (traceLine r) = type_eqb (tool r) c.
Proof. destruct c, r as [[] []]; reflexivity. Qed.

Lemma length_filter_map {X Y} (p : Y -> bool) (g : X -> Y) l :
  List.length (filter p (map g l)) = List.length (filter (fun x => p (g x)) l).
Proof.
  induction l as [| x l IH]; cbn; [reflexivity |].
  destruct (p (g x)); cbn; now rewrite IH.
Qed.

Lemma count_NoDup c l :
  NoDup l ->
  List.length (filter (fun x => type_eqb x c) l)
  = if existsb (fun x => type_eqb x c) l then 1 else 0.
Proof.
  induction 1 as [| x l Hx Hnd IH]; cbn; [reflexivity |].
  destruct (type_eqb x c) eqn:E; cbn; [| exact IH].
  apply type_eqb_eq in E; subst x. rewrite IH.
  destruct (existsb (fun x => type_eqb x c) l) eqn:Ex; [| reflexivity].
  apply existsb_exists in Ex as [y [Hy Hyc]].
  apply type_eqb_eq in Hyc; subst y. contradiction.
Qed.

Lemma existsb_enabled c l t :
  (forall x, In x l <-> enabled t x = true) ->
  existsb (fun x => type_eqb x c) l = enabled t c.
Proof.
  intros H. destruct (enabled t c) eqn:E.
  - apply existsb_exists. exists c. split; [now apply H |].
    now apply type_eqb_eq.
  - destruct (existsb _ l) eqn:Ex; [| reflexivity].
    apply existsb_exists in Ex as [y [Hy Hyc]].
    apply type_eqb_eq in Hyc; subst y. apply H in Hy. congruence.
Qed.

(** C3: whatever the terminal state of each adapter call (results, no
    results, a failure, a timeout), [diagnostics.toolTrace] holds exactly
    one line per enabled capability, made of the tool's name and the tag
    of that terminal state, and none for a disabled one; the provider
    calls made are exactly those of the enabled capabilities. *)
Theorem toolTrace_one_entry_per_enabled cfg env req :
  let out := orchestrate cfg env req in
  let t := req_enabledTools req in
  let nq := normalizedQuery (req_query req) (requestBias cfg req) in
  let trace := toolTrace (diagnostics (fst out)) in
  (forall c, List.length (filter (names_tool c) trace)
             = if enabled t c then 1 else 0) /\
  List.length trace = List.length (filter (enabled t) capabilities) /\
  (forall c, enabled t c = true ->
             In (tool_name c ++ lit ":"
                   ++ tag_name (outcome_tag (outcome cfg env nq c))) trace) /\
  map fst (snd out) = filter (enabled t) capabilities.
Proof.
  cbn zeta. unfold orchestrate. cbn [fst snd diagnostics toolTrace].
  rewrite d_records_eq. repeat split.
  - intros c. rewrite !length_filter_map.
    rewrite (filter_ext _ (fun x => type_eqb x c))
      by (intros x; apply names_tool_traceLine).
    rewrite (count_NoDup c _ (arrival_NoDup env _)).
    now rewrite (existsb_enabled c _ _ (in_arrival env _)).
  - rewrite !length_map.
    symmetry. apply Permutation_length, arrival_perm.
  - intros c Hc. apply in_map_iff.
    exists (record_of cfg env
              (normalizedQuery (req_query req) (requestBias cfg req)) c).
    split; [reflexivity |]. apply in_map, in_arrival, Hc.
  - unfold dispatch; cbn [d_calls]. rewrite map_map. cbn [fst].
    apply map_id.
Qed.

Lemma toolTrace_one_entry_per_enabled_witness :
  In (lit "knowledge:timeout")
     (toolTrace (diagnostics (fst (orchestrate sampleConfig sampleEnv sampleRequest)))).
Proof.
  exact (proj1 (proj2 (proj2
           (toolTrace_one_entry_per_enabled sampleConfig sampleEnv sampleRequest)))
         Knowledge eq_refl).
Defined.

(** The sample run: knowledge times out, the others answer. *)
Example sample_toolTrace :
  toolTrace (diagnostics (getAgentResponse sampleConfig sampleEnv sampleRequest))
  = [lit "community:ok"; lit "system:ok"; lit "search:ok"; lit "knowledge:timeout"].
Proof. reflexivity. Qed.

Example sample_errors :
  errors (diagnostics (getAgentResponse sampleConfig sampleEnv sampleRequest))
  = Some [lit "knowledge timeout"].
Proof. reflexivity. Qed.

Example sample_sources :
  map src_id (sources (getAgentResponse sampleConfig sampleEnv sampleRequest))
  = [lit "search-1"; lit "search-0"; lit "community-0"; lit "system-0";
     lit "system-1"].
Proof. reflexivity. Qed.

Example sample_visionBias :
  extractVisionBias sampleConfig (lit "privacy-first Ubuntu is privacy-first")
  = [lit "privacy-first"; lit "Ubuntu"].
Proof. reflexivity. Qed.

(** *** Blank texts *)

Lemma trimStart_nil s :
  trimStart s = [] <-> forallb is_white_space s = true.
Proof.
  induction s as [| c s IH]; cbn; [tauto |].
  destruct (is_white_space c); cbn; [exact IH |].
  split; discriminate.
Qed.

Lemma trimStart_blank_nil s :
  forallb is_white_space (trimStart s) = true -> trimStart s = [].
Proof.
  induction s as [| c s IH]; cbn; [reflexivity |].
  destruct (is_white_space c) eqn:E; [exact IH |].
  cbn. rewrite E. discriminate.
Qed.

Lemma forallb_rev {X} (p : X -> bool) l : forallb p (rev l) = forallb p l.
Proof.
  induction l as [| x l IH]; cbn; [reflexivity |].
  rewrite forallb_app, IH. cbn. rewrite andb_true_r. apply andb_comm.
Qed.

(** [s.trim()] is empty exactly when [s] is empty or made of white
    space only. *)
Lemma trim_nil s : trim s = [] <-> forallb is_white_space s = true.
Proof.
  unfold trim, trimEnd. rewrite <- trimStart_nil. split.
  - intros H. apply (f_equal (@rev N)) in H. rewrite rev_involutive in H.
    cbn in H. apply trimStart_nil in H. rewrite forallb_rev in H.
    now apply trimStart_blank_nil.
  - intros ->. reflexivity.
Qed.

Lemma words_blank s : forallb is_white_space s = true -> words s = [].
Proof.
  unfold words. induction s as [| c s IH]; cbn; [reflexivity |].
  destruct (is_white_space c); cbn; [exact IH | discriminate].
Qed.

Lemma extractVisionBias_blank cfg text :
  trim text = [] -> extractVisionBias cfg text = [].
Proof.
  intros H. apply trim_nil in H. unfold extractVisionBias.
  rewrite (words_blank _ H). cbn. apply firstn_nil.
Qed.

(** C6: the keyword sequence a run records depends on the vision text
    alone (not on the query, the toggles, the providers, the completion
    order or the clock), so two runs on the same text yield the same
    sequence; on an empty or whitespace-only text the extractor returns
    the empty sequence, and the run records it. *)
Theorem visionBias_deterministic_and_total cfg :
  (forall env1 env2 req1 req2,
     req_vision req1 = req_vision req2 ->
     visionBias (diagnostics (getAgentResponse cfg env1 req1))
     = visionBias (diagnostics (getAgentResponse cfg env2 req2))) /\
  (forall env req,
     visionBias (diagnostics (getAgentResponse cfg env req))
     = option_map (extractVisionBias cfg) (req_vision req)) /\
  (forall text, trim text = [] -> extractVisionBias cfg text = []) /\
  (forall env req text,
     req_vision req = Some text -> trim text = [] ->
     visionBias (diagnostics (getAgentResponse cfg env req)) = Some []).
Proof.
  repeat split.
  - intros env1 env2 req1 req2 H. cbn. now rewrite H.
  - apply extractVisionBias_blank.
  - intros env req text Hv Ht. cbn. rewrite Hv. cbn.
    now rewrite extractVisionBias_blank.
Qed.

Lemma visionBias_deterministic_and_total_witness :
  visionBias (diagnostics (getAgentResponse sampleConfig sampleEnv sampleRequest))
  = visionBias (diagnostics (getAgentResponse sampleConfig sampleEnv'
       {| req_query := lit "another query";
          req_vision := Some (lit "privacy-first Ubuntu");
          req_enabledTools := allDisabled |})) /\
  extractVisionBias sampleConfig (lit "   ") = [].
Proof.
  split.
  - apply (proj1 (visionBias_deterministic_and_total sampleConfig)).
    reflexivity.
  - apply (proj1 (proj2 (proj2 (visionBias_deterministic_and_total sampleConfig)))).
    reflexivity.
Defined.

(** *** The plan *)

(** C8: the plan of every response has at least 3 and at most 7 steps. *)
Theorem plan_between_3_and_7 cfg env req :
  3 <= List.length (plan (getAgentResponse cfg env req)) <= 7.
Proof.
  unfold getAgentResponse, orchestrate. cbn [fst plan]. unfold synthPlan.
  rewrite !length_app, length_map. cbn [List.length].
  match goal with
  | |- context [filter ?p ?l] => pose proof (filter_length_le p l) as H
  end.
  cbn [List.length] in H. lia.
Qed.

(** *** The core behind the boundary *)

Lemma args_from_body_of req : args_from (body_of req) = args_of req.
Proof.
  unfold args_from, body_of, args_of. destruct (req_vision req); reflexivity.
Qed.

Lemma body_of_accepted req :
  req_query req <> [] ->
  truthy (opt_member (body_of req) (lit "query")) = true.
Proof.
  intros H. unfold body_of. cbn. destruct (req_query req); [contradiction | reflexivity].
Qed.

Lemma accepted_body_of req :
  truthy (opt_member (body_of req) (lit "query")) = true ->
  req_query req <> [].
Proof.
  unfold body_of. cbn. destruct (req_query req); [discriminate | discriminate].
Qed.

Lemma sampleCore_implements : implements sampleConfig sampleEnv sampleCore.
Proof.
  intros [q [v |] [a b c d]]; reflexivity.
Qed.

(** C2: a request accepted at the boundary is answered either with
    status 200 and the response the core produced, unchanged, or with the
    one generic 500 reply, whose body is the same whatever was thrown;
    the latter happens only when the core itself rejects.  Behind the
    boundary, the pipeline answers every typed request with a response
    whatever the providers do, so the reply is then the 200 one. *)
Theorem accepted_request_response_or_generic_error core request :
  accepted request ->
  (exists v, json request = inr v /\
     ((exists r, core (args_from v) = inr r /\
                 handle core request = (inr (ok r), [CoreCall (args_from v)]))
      \/
      (exists e, core (args_from v) = inl e /\
                 handle core request
                 = (inr serverError,
                    [CoreCall (args_from v);
                     ConsoleError (lit "Agent handler failed") e])))) /\
  (forall cfg env req,
     implements cfg env core ->
     json request = inr (body_of req) ->
     handle core request
     = (inr (ok (getAgentResponse cfg env req)), [CoreCall (args_of req)])).
Proof.
  intros [v [Hv Ht]]. destruct request as [j]. cbn in Hv. subst j. split.
  - exists v. split; [reflexivity |].
    rewrite (RouteFacts.handle_accepted core v Ht).
    destruct (core (args_from v)) as [e | r]; [right | left]; eauto.
  - intros cfg env req Himpl Hj. cbn in Hj. injection Hj as ->.
    rewrite (RouteFacts.handle_accepted core _ Ht), args_from_body_of.
    now rewrite (Himpl req).
Qed.

Lemma accepted_request_response_or_generic_error_witness :
  handle sampleCore {| json := inr (body_of sampleRequest) |}
  = (inr (ok (getAgentResponse sampleConfig sampleEnv sampleRequest)),
     [CoreCall (args_of sampleRequest)]).
Proof.
  apply (proj2 (accepted_request_response_or_generic_error sampleCore
                  {| json := inr (body_of sampleRequest) |}
                  (ex_intro _ (body_of sampleRequest) (conj eq_refl eq_refl)))
               sampleConfig sampleEnv sampleRequest).
  - exact sampleCore_implements.
  - reflexivity.
Defined.

(** C4: with all four capabilities disabled the response has no
    sources, a non-empty summary, a non-empty plan and the diagnostic
    step saying that no tools were selected; no provider is called, no
    error is recorded, and the boundary answers 200. *)
Theorem all_disabled_is_empty_success cfg env req :
  req_enabledTools req = allDisabled ->
  let r := getAgentResponse cfg env req in
  sources r = [] /\
  summary r <> [] /\
  plan r <> [] /\
  In noToolsStep (steps (diagnostics r)) /\
  errors (diagnostics r) = None /\
  snd (orchestrate cfg env req) = [] /\
  (forall core,
     implements cfg env core -> req_query req <> [] ->
     handle core {| json := inr (body_of req) |}
     = (inr (ok r), [CoreCall (args_of req)]) /\ status (ok r) = 200).
Proof.
  intros Ht. cbn zeta.
  assert (Hsel : selected (req_enabledTools req) = []) by now rewrite Ht.
  assert (Harr : arrival env (req_enabledTools req) = [])
    by (unfold arrival; now rewrite Hsel).
  assert (Hroute : forall core,
             implements cfg env core -> req_query req <> [] ->
             handle core {| json := inr (body_of req) |}
             = (inr (ok (getAgentResponse cfg env req)), [CoreCall (args_of req)])
             /\ status (ok (getAgentResponse cfg env req)) = 200).
  { intros core Himpl Hq. split; [| reflexivity].
    now rewrite (RouteFacts.handle_accepted core _ (body_of_accepted _ Hq)),
      args_from_body_of, (Himpl req). }
  split; [| split; [| split; [| split; [| split; [| split; [| exact Hroute]]]]]];
    unfold getAgentResponse, orchestrate;
    cbn [fst snd sources summary plan diagnostics steps errors];
    rewrite ?d_sources_eq, ?d_errors_eq, ?Harr;
    unfold dispatch; cbn [d_step d_calls]; rewrite ?Hsel;
    cbn [flat_map rank sortBy fold_right optional synthSummary map].
  - reflexivity.
  - discriminate.
  - discriminate.
  - right; left; reflexivity.
  - reflexivity.
  - reflexivity.
Qed.

Lemma all_disabled_is_empty_success_witness :
  sources (getAgentResponse sampleConfig sampleEnv scenarioB) = [] /\
  summary (getAgentResponse sampleConfig sampleEnv scenarioB) <> [] /\
  plan (getAgentResponse sampleConfig sampleEnv scenarioB) <> [] /\
  handle sampleCore {| json := inr (body_of scenarioB) |}
  = (inr (ok (getAgentResponse sampleConfig sampleEnv scenarioB)),
     [CoreCall (args_of scenarioB)]).
Proof.
  pose proof (all_disabled_is_empty_success sampleConfig sampleEnv scenarioB eq_refl)
    as [H1 [H2 [H3 [_ [_ [_ H7]]]]]].
  split; [exact H1 | split; [exact H2 | split; [exact H3 |]]].
  apply (H7 sampleCore sampleCore_implements). discriminate.
Defined.

(** *** Ranking *)

Lemma ranks_before_spec a b : ranks_before a b = true <-> ranked a b.
Proof.
  unfold ranks_before, ranked.
  destruct (Qcompare_spec (src_confidence a) (src_confidence b)) as [E|E|E].
  - rewrite Nat.leb_le. split; [intros H; right; now split |].
    intros [H | [_ H]]; [exfalso; lra | exact H].
  - split; [discriminate |]. intros [H | [H _]]; exfalso; lra.
  - split; [now left | reflexivity].
Qed.

Lemma StronglySorted_impl {X} (P Q : X -> X -> Prop) l :
  (forall a b, P a b -> Q a b) -> StronglySorted P l -> StronglySorted Q l.
Proof.
  intros H. induction 1 as [| x l Hs IH Hx]; constructor; [exact IH |].
  eapply Forall_impl; [| exact Hx]. intros b. apply H.
Qed.

Lemma rank_sorted l : StronglySorted (fun a b => ranks_before a b = true) (rank l).
Proof.
  apply sortBy_sorted; [apply ranks_before_total | apply ranks_before_trans].
Qed.

Lemma rank_stable z l : filter (tie z) (rank l) = filter (tie z) l.
Proof.
  exact (sortBy_stable ranks_before ranks_before_trans z l).
Qed.

(** Two merged lists whose tie classes agree are ranked alike. *)
Lemma rank_determined l1 l2 :
  (forall z, filter (tie z) l1 = filter (tie z) l2) -> rank l1 = rank l2.
Proof.
  intros H.
  apply (sorted_determined ranks_before ranks_before_total ranks_before_trans);
    [apply rank_sorted .. |].
  intros z. change (filter (tie z) (rank l1) = filter (tie z) (rank l2)).
  now rewrite !rank_stable.
Qed.

(** The sources tied with [z] all come from the adapter of [z]'s type. *)
Lemma filter_tie_block z (f : AgentSourceType -> list AgentSource) l :
  (forall c, Forall (fun s => src_type s = c) (f c)) ->
  NoDup l ->
  filter (tie z) (flat_map f l)
  = if existsb (fun x => type_eqb x (src_type z)) l
    then filter (tie z) (f (src_type z)) else [].
Proof.
  intros Hf. induction 1 as [| c l Hc Hnd IH]; cbn [flat_map existsb];
    [reflexivity |].
  rewrite filter_app, IH. destruct (type_eqb c (src_type z)) eqn:E; cbn [orb].
  - apply type_eqb_eq in E; subst c.
    destruct (existsb (fun x => type_eqb x (src_type z)) l) eqn:Ex.
    + apply existsb_exists in Ex as [y [Hy Hyc]].
      apply type_eqb_eq in Hyc; subst y. contradiction.
    + apply app_nil_r.
  - assert (Hnil : filter (tie z) (f c) = []).
    { specialize (Hf c). induction Hf as [| s ss Hs _ IHs]; cbn; [reflexivity |].
      destruct (tie z s) eqn:Et; [| exact IHs].
      apply tie_spec in Et as [_ Et]. rewrite <- Et in Hs. subst c.
      destruct (src_type z); discriminate. }
    now rewrite Hnil.
Qed.

(** C7: the sources of a response are the merged adapter results put in
    order: confidence descending, then the capability priority
    (knowledge, search, community, system), and sources tied on both keep
    their arrival order.  The order does not depend on the instants at
    which the adapters finish or on the clock: two runs on the same
    request in which every enabled adapter reaches the same terminal
    state yield the same [sources]. *)
Theorem sources_ranked_deterministically cfg env req :
  let t := req_enabledTools req in
  let nq := normalizedQuery (req_query req) (requestBias cfg req) in
  let merged :=
    d_sources (dispatch cfg env (req_query req) (requestBias cfg req) t) in
  let r := getAgentResponse cfg env req in
  Permutation merged (sources r) /\
  StronglySorted ranked (sources r) /\
  (forall z, filter (tie z) (sources r) = filter (tie z) merged) /\
  (forall env',
     (forall c, enabled t c = true ->
                outcome cfg env' nq c = outcome cfg env nq c) ->
     sources (getAgentResponse cfg env' req) = sources r).
Proof.
  cbn zeta. unfold getAgentResponse, orchestrate. cbn [fst sources].
  split; [apply sortBy_perm |].
  split; [eapply StronglySorted_impl; [| apply rank_sorted];
          intros a b; apply ranks_before_spec |].
  split; [intros z; apply rank_stable |].
  intros env' Hsame. apply rank_determined. intros z.
  rewrite !d_sources_eq.
  rewrite !filter_tie_block
    by (try apply arrival_NoDup; intros c; apply outcome_type).
  rewrite !(existsb_enabled _ _ _ (in_arrival _ _)).
  destruct (enabled (req_enabledTools req) (src_type z)) eqn:E; [| reflexivity].
  now rewrite (Hsame _ E).
Qed.

Lemma sources_ranked_deterministically_witness :
  sources (getAgentResponse sampleConfig sampleEnv' sampleRequest)
  = sources (getAgentResponse sampleConfig sampleEnv sampleRequest).
Proof.
  apply (proj2 (proj2 (proj2
           (sources_ranked_deterministically sampleConfig sampleEnv sampleRequest)))
         sampleEnv').
  intros c _. destruct c; reflexivity.
Defined.

End CoreFacts.

(* ------------------------------------------------------------------ *)
(** ** The chat client *)
(* ------------------------------------------------------------------ *)

Module PageFacts.
Import Page.

Lemma handleSubmit_sends uuid now st r :
  snd (handleSubmit uuid now st) = Some r ->
  trim (st_query st) <> [] /\ st_loading st = false /\
  st_loading (fst (handleSubmit uuid now st)) = true /\
  fetch_url r = lit "/api/agent" /\
  get (fetch_body r) (lit "query") = VStr (trim (st_query st)).
Proof.
  unfold handleSubmit.
  destruct (trim (st_query st)) as [| c q] eqn:Eq; cbn; [discriminate |].
  destruct (st_loading st); cbn; [discriminate |].
  intros H. injection H as <-. cbn.
  repeat split; discriminate.
Qed.

Lemma handleSubmit_idle uuid now st :
  snd (handleSubmit uuid now st) = None ->
  fst (handleSubmit uuid now st) = st.
Proof.
  unfold handleSubmit.
  destruct (negb (truthy (VStr (trim (st_query st)))) || st_loading st);
    [reflexivity | discriminate].
Qed.

(** When the handler goes ahead, its own view of the next state is the
    queued setters applied to the state it read. *)
Lemma handleSubmit_queues uuid now st r :
  snd (handleSubmit uuid now st) = Some r ->
  fst (handleSubmit uuid now st)
  = submitUpdates uuid now (trim (st_query st)) st.
Proof.
  unfold handleSubmit.
  destruct (negb (truthy (VStr (trim (st_query st)))) || st_loading st);
    [discriminate | reflexivity].
Qed.

Lemma step_submit_cases uuid now w :
  (dispatched uuid now w = None /\ step w (Submit uuid now) = w)
  \/
  (exists r,
     dispatched uuid now w = Some r /\
     step w (Submit uuid now)
     = {| page := submitUpdates uuid now (trim (st_query (rendered w))) (page w);
          rendered := rendered w;
          inflight := inflight w ++ [r] |}).
Proof.
  unfold dispatched. cbn [step].
  destruct (snd (handleSubmit uuid now (rendered w))) as [r |];
    [right; now exists r | now left].
Qed.

(** With a re-render before the event, the flag keeps counting. *)
Lemma rerendered_step_invariant w a :
  loading_tracks_inflight w ->
  loading_tracks_inflight (step (step w Render) a).
Proof.
  unfold loading_tracks_inflight. intros H.
  destruct a as [uuid now | text | text | key | saved | uuid result |];
    try exact H.
  - destruct (step_submit_cases uuid now (step w Render))
      as [[_ ->] | [r [Hd ->]]]; [exact H |].
    destruct (handleSubmit_sends uuid now _ r Hd) as [_ [Hl _]].
    change (st_loading (page w) = false) in Hl. rewrite Hl in H.
    change (List.length (inflight w ++ [r]) = 1).
    rewrite length_app, H. reflexivity.
  - change (step (step w Render) (Settle uuid result))
      with (match inflight w with
            | [] => step w Render
            | _ :: rest => {| page := resume uuid result (page w);
                              rendered := page w; inflight := rest |}
            end).
    destruct (inflight w) as [| x rest] eqn:E.
    + cbn [step inflight page]. now rewrite E.
    + cbn [page inflight]. destruct (st_loading (page w)); cbn in H; [| lia].
      destruct rest; [reflexivity | cbn in H; lia].
Qed.

Lemma run_rerendered_snoc w actions a :
  run_rerendered w (actions ++ [a])
  = step (step (run_rerendered w actions) Render) a.
Proof. unfold run_rerendered. now rewrite fold_left_app. Qed.

Lemma run_rerendered_invariant actions :
  loading_tracks_inflight (run_rerendered initialWorld actions).
Proof.
  induction actions as [| a actions IH] using rev_ind; [reflexivity |].
  rewrite run_rerendered_snoc. now apply rerendered_step_invariant.
Qed.

(** C10, as stated, fails: the guard of [handleSubmit] reads the
    [loading] of the render the handler belongs to.  After a first submit
    that no re-render has followed, one request is in flight and the
    state React holds has [loading] raised, yet a second submit passes
    the guard and sends a second request. *)
Lemma second_submit_before_rerender_dispatches :
  reachable staleWorld /\
  inflight staleWorld = [sampleFetch] /\
  st_loading (page staleWorld) = true /\
  dispatched (lit "id-2") (lit "2024-01-01T00:00:01.000Z") staleWorld
  = Some sampleFetch /\
  inflight (step staleWorld (Submit (lit "id-2") (lit "2024-01-01T00:00:01.000Z")))
  = [sampleFetch; sampleFetch].
Proof.
  split; [| repeat split].
  exists [Change (lit "  hello Brian  "); Render;
          Submit (lit "id-1") (lit "2024-01-01T00:00:00.000Z")].
  reflexivity.
Qed.

(** C10, amended: a submit hands a request to [fetch] only if, in the
    render its handler belongs to, the query is non-empty once trimmed
    and [loading] is false; the request goes to [/api/agent], its [query]
    field is exactly that text trimmed, and it joins the requests in
    flight. *)
Theorem submit_guard_reads_last_render uuid now w r :
  dispatched uuid now w = Some r ->
  trim (st_query (rendered w)) <> [] /\
  st_loading (rendered w) = false /\
  fetch_url r = lit "/api/agent" /\
  get (fetch_body r) (lit "query") = VStr (trim (st_query (rendered w))) /\
  inflight (step w (Submit uuid now)) = inflight w ++ [r].
Proof.
  intros Hd.
  destruct (handleSubmit_sends uuid now (rendered w) r Hd) as [Hq [Hl [_ [Hu Hb]]]].
  repeat split; try assumption.
  destruct (step_submit_cases uuid now w) as [[Hn _] | [r' [Hd' ->]]].
  - rewrite Hn in Hd. discriminate.
  - rewrite Hd' in Hd. injection Hd as ->. reflexivity.
Qed.

Lemma submit_guard_reads_last_render_witness :
  trim (st_query (rendered shownWorld)) <> [] /\
  st_loading (rendered shownWorld) = false /\
  fetch_url sampleFetch = lit "/api/agent" /\
  get (fetch_body sampleFetch) (lit "query")
  = VStr (trim (st_query (rendered shownWorld))) /\
  inflight (step shownWorld (Submit (lit "id-1") (lit "2024-01-01T00:00:00.000Z")))
  = inflight shownWorld ++ [sampleFetch].
Proof.
  apply (submit_guard_reads_last_render
           (lit "id-1") (lit "2024-01-01T00:00:00.000Z") shownWorld sampleFetch).
  reflexivity.
Defined.

(** Once React has re-rendered, a further submit sends nothing while the
    first request is in flight. *)
Example second_submit_sends_nothing :
  dispatched (lit "id-2") (lit "2024-01-01T00:00:01.000Z")
    (run staleWorld [Render; Change (lit "again"); Render])
  = None.
Proof. reflexivity. Qed.

End PageFacts.

(* ------------------------------------------------------------------ *)
(** ** More on the request boundary *)
(* ------------------------------------------------------------------ *)

Module RouteMore.
Import Route Samples.

(** The handler, case by case. *)
Lemma handle_cases core request :
  handle core request
  = match json request with
    | inl e => (inr serverError, [ConsoleError (lit "Agent handler failed") e])
    | inr v =>
        if truthy (opt_member v (lit "query")) then
          match core (args_from v) with
          | inr r => (inr (ok r), [CoreCall (args_from v)])
          | inl e => (inr serverError,
                      [CoreCall (args_from v);
                       ConsoleError (lit "Agent handler failed") e])
          end
        else (inr badRequest, [])
    end.
Proof.
  destruct request as [[e | v]]; cbn [json].
  - apply RouteFacts.handle_unparsable.
  - destruct (truthy (opt_member v (lit "query"))) eqn:E.
    + now apply RouteFacts.handle_accepted.
    + now apply RouteFacts.handle_rejected.
Qed.

(** X1: [POST] never rejects: whatever the body and whatever the core
    does, it resolves with a reply; the status is 200, 400 or 500, and the
    body is a response exactly when the status is 200. *)
Theorem POST_always_replies core request :
  exists rep,
    fst (handle core request) = inr rep /\
    (status rep = 200 \/ status rep = 400 \/ status rep = 500) /\
    (status rep = 200 <-> exists r, body rep = ResponseBody r).
Proof.
  rewrite handle_cases. destruct (json request) as [e | v].
  - exists serverError. split; [reflexivity |]. split; [auto |].
    split; [discriminate | intros [r H]; discriminate H].
  - destruct (truthy (opt_member v (lit "query"))).
    + destruct (core (args_from v)) as [e | r].
      * exists serverError. split; [reflexivity |]. split; [auto |].
        split; [discriminate | intros [r H]; discriminate H].
      * exists (ok r). split; [reflexivity |]. split; [auto |].
        split; [intros _; now exists r | reflexivity].
    + exists badRequest. split; [reflexivity |]. split; [auto |].
      split; [discriminate | intros [r H]; discriminate H].
Qed.

(** X2: a body that parses to anything but an object ([null], a boolean,
    a number, a string, an array) is answered 400 without touching the
    core: [payload?.query] is [undefined] on all of them. *)
Theorem non_object_body_rejected core v :
  (forall props, v <> VObj props) ->
  handle core {| json := inr v |} = (inr badRequest, []).
Proof.
  intros H. apply RouteFacts.handle_rejected.
  destruct v; try reflexivity. now destruct (H props).
Qed.

Lemma non_object_body_rejected_witness :
  handle sampleCore {| json := inr (VArr [VStr (lit "query")]) |}
  = (inr badRequest, []).
Proof.
  apply (non_object_body_rejected sampleCore (VArr [VStr (lit "query")])).
  discriminate.
Defined.

(** X3: the events of one request: the core is called at most once; a
    400 leaves no event at all; a 200 means exactly one core call, which
    resolved with the response sent back; the status is 500 exactly when
    [console.error] is called, and then it is called once, as the last
    event, with what was thrown: alone when the body did not parse, right
    after the one core call when the core rejected. *)
Theorem POST_events core request rep log :
  handle core request = (inr rep, log) ->
  List.length (core_calls log) <= 1 /\
  (status rep = 400 -> log = []) /\
  (status rep = 200 ->
   exists a r, log = [CoreCall a] /\ core a = inr r /\ rep = ok r) /\
  (status rep = 500 <->
   exists e,
     (json request = inl e /\
      log = [ConsoleError (lit "Agent handler failed") e])
     \/
     (exists a, core a = inl e /\
                log = [CoreCall a; ConsoleError (lit "Agent handler failed") e])).
Proof.
  rewrite handle_cases. destruct (json request) as [e | v].
  - intros H; injection H as <- <-. cbn.
    split; [lia |]. split; [discriminate |]. split; [discriminate |].
    split; [| reflexivity]. intros _. exists e. now left.
  - destruct (truthy (opt_member v (lit "query"))).
    + destruct (core (args_from v)) as [e | r] eqn:Ec;
        intros H; injection H as <- <-; cbn.
      * split; [lia |]. split; [discriminate |]. split; [discriminate |].
        split; [| reflexivity]. intros _. exists e. right.
        now exists (args_from v).
      * split; [lia |]. split; [discriminate |].
        split; [intros _; exists (args_from v), r; auto |].
        split; [discriminate |].
        intros [e [[H _] | [a [_ H]]]]; discriminate H.
    + intros H; injection H as <- <-; cbn.
      split; [lia |]. split; [reflexivity |]. split; [discriminate |].
      split; [discriminate |].
      intros [e [[H _] | [a [_ H]]]]; discriminate H.
Qed.

Lemma POST_events_witness :
  exists a r,
    [CoreCall (args_from blankBody)] = [CoreCall a]
    /\ sampleCore a = inr r
    /\ ok (Core.getAgentResponse sampleConfig sampleEnv
             {| req_query := lit "   "; req_vision := None;
                req_enabledTools := allEnabled |}) = ok r.
Proof.
  apply (proj1 (proj2 (proj2
           (POST_events sampleCore {| json := inr blankBody |} _ _ eq_refl)))).
  reflexivity.
Defined.

Lemma opt_member_get v k : opt_member v k = get v k.
Proof. destruct v; reflexivity. Qed.

(** X4: [enabledTools] is replaced by the all-enabled default only when
    it is [null] or absent ([??], not [||]): any other value, be it
    [false], an empty string or a map with some keys only, reaches the
    core as it came, without being completed from the default. *)
Theorem enabledTools_only_nullish_defaulted core v t :
  truthy (opt_member v (lit "query")) = true ->
  get v (lit "enabledTools") = t ->
  exists a,
    core_calls (snd (handle core {| json := inr v |})) = [a] /\
    arg_enabledTools a
    = match t with
      | VUndefined | VNull => toolSettings_value allEnabled
      | _ => t
      end.
Proof.
  intros Hq Ht. rewrite (RouteFacts.handle_accepted core v Hq).
  exists (args_from v). split.
  - destruct (core (args_from v)); reflexivity.
  - unfold args_from. cbn [arg_enabledTools]. rewrite Ht.
    destruct t; reflexivity.
Qed.

Lemma enabledTools_only_nullish_defaulted_witness :
  exists a,
    core_calls
      (snd (handle sampleCore
              {| json := inr (VObj [ (lit "query", VStr (lit "q"));
                                     (lit "enabledTools",
                                      VObj [(lit "search", VBool false)]) ]) |}))
    = [a] /\
    arg_enabledTools a = VObj [(lit "search", VBool false)].
Proof.
  apply (enabledTools_only_nullish_defaulted sampleCore
           (VObj [ (lit "query", VStr (lit "q"));
                   (lit "enabledTools", VObj [(lit "search", VBool false)]) ])
           (VObj [(lit "search", VBool false)]));
    reflexivity.
Defined.

(** X5: the reply and the events depend on the body through its
    [query], [vision] and [enabledTools] only: two bodies that agree on
    these three are handled alike, whatever else they carry. *)
Theorem POST_reads_three_fields core v1 v2 :
  get v1 (lit "query") = get v2 (lit "query") ->
  get v1 (lit "vision") = get v2 (lit "vision") ->
  get v1 (lit "enabledTools") = get v2 (lit "enabledTools") ->
  handle core {| json := inr v1 |} = handle core {| json := inr v2 |}.
Proof.
  intros Hq Hv Ht. rewrite !handle_cases. cbn [json].
  rewrite !opt_member_get, Hq.
  assert (Ha : args_from v1 = args_from v2)
    by (unfold args_from; now rewrite Hq, Hv, Ht).
  now rewrite Ha.
Qed.

Lemma POST_reads_three_fields_witness :
  handle sampleCore
    {| json := inr (VObj [ (lit "debug", VBool true);
                           (lit "query", VStr (lit "q")) ]) |}
  = handle sampleCore {| json := inr (VObj [ (lit "query", VStr (lit "q")) ]) |}.
Proof.
  apply (POST_reads_three_fields sampleCore
           (VObj [ (lit "debug", VBool true);
                   (lit "query", VStr (lit "q")) ])
           (VObj [ (lit "query", VStr (lit "q")) ]));
    reflexivity.
Defined.

End RouteMore.

(* ------------------------------------------------------------------ *)
(** ** More on the chat client *)
(* ------------------------------------------------------------------ *)

Module PageMore.
Import Route Page Samples.

(** *** Trimming *)

Lemma trimStart_clean s : clean_start (trimStart s) = true.
Proof.
  induction s as [| c s IH]; cbn; [reflexivity |].
  destruct (is_white_space c) eqn:E; [exact IH |]. cbn. now rewrite E.
Qed.

Lemma trimStart_id s : clean_start s = true -> trimStart s = s.
Proof.
  destruct s as [| c s]; cbn; [reflexivity |].
  destruct (is_white_space c); [discriminate | reflexivity].
Qed.

Lemma trimStart_suffix s : exists p, s = p ++ trimStart s.
Proof.
  induction s as [| c s [p IH]]; cbn; [now exists [] |].
  destruct (is_white_space c); [| now exists []].
  exists (c :: p). cbn. now rewrite <- IH.
Qed.

Lemma trimEnd_prefix s : exists q, s = trimEnd s ++ q.
Proof.
  unfold trimEnd. destruct (trimStart_suffix (rev s)) as [p H].
  exists (rev p). rewrite <- rev_app_distr, <- H. symmetry. apply rev_involutive.
Qed.

Lemma trimEnd_clean_end s : clean_end (trimEnd s) = true.
Proof.
  unfold clean_end, trimEnd. rewrite rev_involutive. apply trimStart_clean.
Qed.

Lemma trimEnd_keeps_clean_start s :
  clean_start s = true -> clean_start (trimEnd s) = true.
Proof.
  intros H. destruct (trimEnd_prefix s) as [q Hq].
  destruct (trimEnd s) as [| c t]; [reflexivity |].
  rewrite Hq in H. exact H.
Qed.

Lemma trimEnd_id s : clean_end s = true -> trimEnd s = s.
Proof.
  unfold clean_end, trimEnd. intros H. rewrite (trimStart_id _ H).
  apply rev_involutive.
Qed.

Lemma trim_clean s : clean_start (trim s) = true /\ clean_end (trim s) = true.
Proof.
  unfold trim. split.
  - apply trimEnd_keeps_clean_start, trimStart_clean.
  - apply trimEnd_clean_end.
Qed.

Lemma trim_clean_id s :
  clean_start s = true -> clean_end s = true -> trim s = s.
Proof.
  intros H1 H2. unfold trim. rewrite (trimStart_id _ H1). now apply trimEnd_id.
Qed.

Lemma trim_idempotent s : trim (trim s) = trim s.
Proof. destruct (trim_clean s). now apply trim_clean_id. Qed.

(** *** The toggles *)

(** X6: [handleToggle(key)] flips the toggle of [key] and no other,
    leaves the rest of the page state alone, undoes itself when applied
    twice, and toggles of different keys can be applied in either
    order. *)
Theorem handleToggle_flips_one_key key st :
  toolAt (st_tools (handleToggle key st)) key = negb (toolAt (st_tools st) key) /\
  (forall k, k <> key ->
     toolAt (st_tools (handleToggle key st)) k = toolAt (st_tools st) k) /\
  handleToggle key (handleToggle key st) = st /\
  (forall k, handleToggle k (handleToggle key st)
             = handleToggle key (handleToggle k st)) /\
  setTools (st_tools st) (handleToggle key st) = st.
Proof.
  destruct st as [v [a b c d] q m l e].
  split; [destruct key; reflexivity |].
  split; [intros k Hk; destruct k, key; try reflexivity; now destruct Hk |].
  split; [destruct key, a, b, c, d; reflexivity |].
  split; [intros k; destruct k, key; reflexivity |].
  destruct key; reflexivity.
Qed.

Lemma handleToggle_flips_one_key_witness :
  toolAt (st_tools (handleToggle Community initialState)) Search
  = toolAt (st_tools initialState) Search.
Proof.
  apply (proj1 (proj2 (handleToggle_flips_one_key Community initialState)) Search).
  discriminate.
Defined.

(** *** Submitting *)

Lemma handleSubmit_blocked uuid now st :
  trim (st_query st) = [] \/ st_loading st = true ->
  handleSubmit uuid now st = (st, None).
Proof.
  unfold handleSubmit. intros [H | H]; rewrite H; [reflexivity |].
  now rewrite orb_true_r.
Qed.

Lemma handleSubmit_goes uuid now st :
  trim (st_query st) <> [] -> st_loading st = false ->
  handleSubmit uuid now st
  = ({| st_vision := st_vision st;
        st_tools := st_tools st;
        st_query := [];
        st_messages :=
          st_messages st
          ++ [{| msg_id := uuid; role := user; content := trim (st_query st);
                 payload := None; createdAt := now |}];
        st_loading := true;
        st_error := None |},
     Some {| fetch_url := lit "/api/agent";
             fetch_method := lit "POST";
             fetch_headers := [(lit "Content-Type", lit "application/json")];
             fetch_body :=
               VObj [ (lit "query", VStr (trim (st_query st)));
                      (lit "vision", VStr (st_vision st));
                      (lit "enabledTools", toolSettings_value (st_tools st)) ] |}).
Proof.
  unfold handleSubmit. intros Hq ->.
  destruct (trim (st_query st)); [contradiction | reflexivity].
Qed.

Lemma handleSubmit_sent_inv uuid now st r :
  snd (handleSubmit uuid now st) = Some r ->
  trim (st_query st) <> [] /\ st_loading st = false.
Proof.
  intros H. destruct (trim (st_query st)) as [| c q] eqn:Eq.
  - rewrite handleSubmit_blocked in H by (left; exact Eq). discriminate.
  - destruct (st_loading st) eqn:El.
    + rewrite handleSubmit_blocked in H by (right; exact El). discriminate.
    + split; [discriminate | reflexivity].
Qed.



(** X8: the query a submit sends is never blank and never padded: it is
    non-empty, neither starts nor ends with white space, and trimming it
    again changes nothing; the request is a JSON [POST] that carries the
    vision and the toggles of the page at that moment. *)
Theorem sent_request_shape uuid now st r :
  snd (handleSubmit uuid now st) = Some r ->
  exists q,
    fetch_body r
    = VObj [ (lit "query", VStr q);
             (lit "vision", VStr (st_vision st));
             (lit "enabledTools", toolSettings_value (st_tools st)) ] /\
    q <> [] /\ clean_start q = true /\ clean_end q = true /\ trim q = q /\
    fetch_method r = lit "POST" /\
    fetch_headers r = [(lit "Content-Type", lit "application/json")].
Proof.
  intros H. destruct (handleSubmit_sent_inv uuid now st r H) as [Hq Hl].
  rewrite (handleSubmit_goes uuid now st Hq Hl) in H. injection H as <-.
  exists (trim (st_query st)). cbn.
  destruct (trim_clean (st_query st)) as [H1 H2].
  repeat split; try assumption. apply trim_idempotent.
Qed.

Lemma sent_request_shape_witness :
  exists q,
    fetch_body sampleFetch
    = VObj [ (lit "query", VStr q);
             (lit "vision", VStr (st_vision (page sampleWorld)));
             (lit "enabledTools", toolSettings_value (st_tools (page sampleWorld))) ] /\
    q <> [] /\ clean_start q = true /\ clean_end q = true /\ trim q = q /\
    fetch_method sampleFetch = lit "POST" /\
    fetch_headers sampleFetch = [(lit "Content-Type", lit "application/json")].
Proof.
  apply (sent_request_shape (lit "id-1") (lit "2024-01-01T00:00:00.000Z")
           (page sampleWorld) sampleFetch).
  reflexivity.
Defined.

(** *** Settling *)

Lemma resume_messages uuid result st :
  st_messages (resume uuid result st)
  = match result with
    | Resolved true (inr p) =>
        st_messages st
        ++ [{| msg_id := uuid; role := agent; content := summary p;
               payload := Some p; createdAt := timestamp p |}]
    | _ => st_messages st
    end.
Proof. destruct result as [e | [] [e | p]]; reflexivity. Qed.

Lemma resume_loading uuid result st : st_loading (resume uuid result st) = false.
Proof. reflexivity. Qed.

(** X9: however the [fetch] ends, [loading] is lowered and the input,
    the vision and the toggles are left alone.  An answer with an ok
    status and a readable body appends exactly one agent message and
    leaves the error as it was; every other ending appends nothing and
    shows an error; a status that is not ok shows the fixed text without
    reading the body. *)
Theorem settle_effects uuid result st :
  let st' := resume uuid result st in
  st_loading st' = false /\
  st_query st' = st_query st /\ st_vision st' = st_vision st /\
  st_tools st' = st_tools st /\
  ((exists p, result = Resolved true (inr p) /\
              st_error st' = st_error st /\
              st_messages st'
              = st_messages st
                ++ [{| msg_id := uuid; role := agent; content := summary p;
                       payload := Some p; createdAt := timestamp p |}])
   \/
   ((forall p, result <> Resolved true (inr p)) /\
    st_messages st' = st_messages st /\ st_error st' <> None)) /\
  (forall j, resume uuid (Resolved false j) st
             = setLoading false
                 (setError (Some (lit "The agent could not complete the request."))
                    st)).
Proof.
  cbn zeta. repeat (split; [destruct result as [e | [] [e | p]]; reflexivity |]).
  split; [| reflexivity].
  destruct result as [e | [] [e | p]];
    try (right; split; [discriminate | split; [reflexivity | discriminate]]).
  left. exists p. repeat split.
Qed.

Lemma settle_effects_witness :
  st_loading (resume (lit "id-2") (Resolved false (inl (ThrownOther VNull)))
                (fst (handleSubmit (lit "id-1") (lit "2024-01-01T00:00:00.000Z")
                        (page sampleWorld))))
  = false.
Proof.
  apply (proj1 (settle_effects (lit "id-2") (Resolved false (inl (ThrownOther VNull)))
                  (fst (handleSubmit (lit "id-1") (lit "2024-01-01T00:00:00.000Z")
                          (page sampleWorld))))).
Defined.

(** *** Reachable states *)

Lemma run_snoc w actions a : run w (actions ++ [a]) = step (run w actions) a.
Proof. unfold run. now rewrite fold_left_app. Qed.

Lemma reachable_step w a : reachable w -> reachable (step w a).
Proof.
  intros [actions ->]. exists (actions ++ [a]). symmetry. apply run_snoc.
Qed.

Lemma reachable_induction (P : World -> Prop) :
  P initialWorld ->
  (forall w a, reachable w -> P w -> P (step w a)) ->
  forall w, reachable w -> P w.
Proof.
  intros H0 Hs w [actions ->].
  induction actions as [| a actions IH] using rev_ind; [exact H0 |].
  rewrite run_snoc. apply Hs; [now exists actions | exact IH].
Qed.

Lemma step_pending_error w a :
  (st_loading (page w) = true -> st_error (page w) = None) ->
  st_loading (page (step w a)) = true -> st_error (page (step w a)) = None.
Proof.
  intros IH.
  destruct a as [uuid now | text | text | key | saved | uuid result |];
    try exact IH.
  - destruct (PageFacts.step_submit_cases uuid now w)
      as [[_ ->] | [r [_ ->]]]; [exact IH | reflexivity].
  - cbn [step]. destruct (inflight w); [exact IH | discriminate].
Qed.

(** X10: when React re-renders before every event, there is at most one
    request in flight, [loading] is raised exactly while there is one,
    and no error is held while it is pending. *)
Theorem one_request_at_a_time_when_rerendered actions :
  let w := run_rerendered initialWorld actions in
  List.length (inflight w) <= 1 /\
  (st_loading (page w) = true <-> inflight w <> []) /\
  (st_loading (page w) = true -> st_error (page w) = None).
Proof.
  cbn zeta.
  pose proof (PageFacts.run_rerendered_invariant actions) as Hinv.
  unfold loading_tracks_inflight in Hinv.
  split; [destruct (st_loading (page (run_rerendered initialWorld actions))); lia |].
  split.
  - destruct (st_loading (page (run_rerendered initialWorld actions))),
      (inflight (run_rerendered initialWorld actions)); cbn in Hinv;
      split; intros H; congruence || discriminate || lia.
  - clear Hinv.
    induction actions as [| a actions IH] using rev_ind; [discriminate |].
    rewrite PageFacts.run_rerendered_snoc.
    apply step_pending_error, step_pending_error, IH.
Qed.

(** *** The history *)

Lemma step_messages w a :
  st_messages (page (step w a))
  = st_messages (page w)
    ++ match a with
       | Submit uuid now =>
           match dispatched uuid now w with
           | Some _ => [{| msg_id := uuid; role := user;
                           content := trim (st_query (rendered w));
                           payload := None; createdAt := now |}]
           | None => []
           end
       | Settle uuid (Resolved true (inr p)) =>
           match inflight w with
           | [] => []
           | _ :: _ => [{| msg_id := uuid; role := agent; content := summary p;
                           payload := Some p; createdAt := timestamp p |}]
           end
       | _ => []
       end.
Proof.
  destruct a as [uuid now | text | text | key | saved | uuid result |];
    try (cbn; now rewrite app_nil_r).
  - destruct (PageFacts.step_submit_cases uuid now w)
      as [[Hd ->] | [r [Hd ->]]]; rewrite Hd.
    + now rewrite app_nil_r.
    + reflexivity.
  - cbn [step]. destruct (inflight w) as [| x rest].
    + destruct result as [e | [] [e | p]]; now rewrite app_nil_r.
    + cbn [page]. rewrite resume_messages.
      destruct result as [e | [] [e | p]]; try reflexivity; now rewrite app_nil_r.
Qed.

(** X11: the history is append-only: no sequence of actions removes,
    reorders or rewrites a message, and each action adds at most one. *)
Theorem history_append_only actions : forall w,
  exists added,
    st_messages (page (run w actions)) = st_messages (page w) ++ added /\
    List.length added <= List.length actions.
Proof.
  induction actions as [| a actions IH]; intros w.
  - exists []. split; [now rewrite app_nil_r | reflexivity].
  - destruct (IH (step w a)) as [added [H Hl]]. cbn [run fold_left] in *.
    rewrite step_messages in H.
    eexists. rewrite <- app_assoc in H. split; [exact H |].
    rewrite length_app. cbn [List.length].
    enough (forall l : list Message, l = [] \/ (exists m, l = [m]) ->
                                     List.length l <= 1) as Hone.
    { match goal with
      | |- List.length ?l + _ <= _ => assert (List.length l <= 1)
      end; [| lia].
      apply Hone.
      destruct a as [uuid now | text | text | key | saved | uuid result |]; auto.
      - destruct (dispatched uuid now w); eauto.
      - destruct result as [e | [] [e | p]]; auto.
        destruct (inflight w); eauto. }
    intros l [-> | [m ->]]; cbn; lia.
Qed.


Lemma step_message_ok w a :
  Forall message_ok (st_messages (page w)) ->
  Forall message_ok (st_messages (page (step w a))).
Proof.
  intros IH. rewrite step_messages. apply Forall_app. split; [exact IH |].
  destruct a as [uuid now | text | text | key | saved | uuid result |];
    try constructor.
  - destruct (dispatched uuid now w); constructor;
      [reflexivity | constructor].
  - destruct result as [e | [] [e | p]]; try constructor.
    destruct (inflight w); constructor; [| constructor].
    exists p. repeat split.
Qed.



(** *** The latest synthesis *)

Lemma lastAgentPayload_snoc ms m :
  lastAgentPayload (ms ++ [m])
  = if is_agent m then payload m else lastAgentPayload ms.
Proof.
  unfold lastAgentPayload. rewrite rev_unit. cbn [find].
  now destruct (is_agent m).
Qed.

(** X13: the payload behind the "Latest synthesis" panel changes only
    when a pending request is answered with an ok status and a readable
    body, and then it is that answer; typing, toggling, submitting and
    failed requests leave it as it was. *)
Theorem latest_synthesis_step w a :
  lastAgentPayload (st_messages (page (step w a)))
  = match a, inflight w with
    | Settle _ (Resolved true (inr p)), _ :: _ => Some p
    | _, _ => lastAgentPayload (st_messages (page w))
    end.
Proof.
  rewrite step_messages.
  destruct a as [uuid now | text | text | key | saved | uuid result |];
    try (now rewrite app_nil_r).
  - destruct (dispatched uuid now w);
      [now rewrite lastAgentPayload_snoc | now rewrite app_nil_r].
  - destruct result as [e | [] [e | p]]; try (now rewrite app_nil_r);
      try (destruct (inflight w); now rewrite app_nil_r).
    destruct (inflight w); [now rewrite app_nil_r |].
    now rewrite lastAgentPayload_snoc.
Qed.

Lemma lastAgentPayload_spec ms :
  Forall message_ok ms ->
  match lastAgentPayload ms with
  | None => forall m, In m ms -> role m = user
  | Some p => exists m, In m ms /\ role m = agent /\ payload m = Some p
                        /\ content m = summary p
  end.
Proof.
  induction ms as [| m ms IH] using rev_ind; intros H.
  - cbn. intros m [].
  - apply Forall_app in H as [Hms Hm]. inversion Hm as [| ? ? Hok _]; subst.
    rewrite lastAgentPayload_snoc. unfold is_agent, message_ok in *.
    destruct (role m) eqn:Er.
    + specialize (IH Hms). destruct (lastAgentPayload ms) as [p |].
      * destruct IH as [m' [Hin H']]. exists m'. split; [| exact H'].
        apply in_or_app. now left.
      * intros m' Hin. apply in_app_or in Hin as [Hin | [<- | []]];
          [now apply IH | exact Er].
    + destruct Hok as [p [Hp [Hc _]]]. rewrite Hp.
      exists m. repeat split; try assumption. apply in_or_app. right. now left.
Qed.

(** X14: in every state the page can reach, the "Latest synthesis"
    panel is empty exactly when the history holds no agent message;
    otherwise it shows the payload of an agent message of the history,
    the one whose summary that message displays. *)
Theorem latest_synthesis_reachable w :
  reachable w ->
  match lastAgentPayload (st_messages (page w)) with
  | None => forall m, In m (st_messages (page w)) -> role m = user
  | Some p => exists m, In m (st_messages (page w)) /\ role m = agent
                        /\ payload m = Some p /\ content m = summary p
  end.
Proof.
  intros Hr. apply lastAgentPayload_spec.
  revert w Hr.
  apply (reachable_induction (fun w => Forall message_ok (st_messages (page w))));
    [constructor |].
  intros w a _ IH. now apply step_message_ok.
Qed.

Lemma latest_synthesis_reachable_witness :
  exists m, In m (st_messages (page answeredWorld)) /\ role m = agent
            /\ payload m = Some sampleAnswer /\ content m = summary sampleAnswer.
Proof.
  apply (latest_synthesis_reachable answeredWorld).
  exists answeredActions. reflexivity.
Defined.

(** *** Client and boundary together *)

(** X15: a request sent by the page is never turned down by the route
    handler: its query is truthy, so the core is called, exactly once,
    with the trimmed text, the vision and the toggles of the page (not
    the server's default map); the reply is never a 400, and it is the
    core's response whenever the core resolves. *)
Theorem client_request_reaches_core core uuid now st r :
  snd (handleSubmit uuid now st) = Some r ->
  let a := {| arg_query := VStr (trim (st_query st));
              arg_vision := VStr (st_vision st);
              arg_enabledTools := toolSettings_value (st_tools st) |} in
  core_calls (snd (handle core (received r))) = [a] /\
  (forall rep, fst (handle core (received r)) = inr rep -> status rep <> 400) /\
  (forall resp, core a = inr resp ->
                fst (handle core (received r)) = inr (ok resp)).
Proof.
  intros H. destruct (handleSubmit_sent_inv uuid now st r H) as [Hq Hl].
  rewrite (handleSubmit_goes uuid now st Hq Hl) in H. injection H as <-.
  cbn zeta. unfold received. cbn [fetch_body].
  destruct (trim (st_query st)) as [| c q] eqn:Eq; [contradiction |].
  rewrite RouteFacts.handle_accepted by reflexivity.
  change (args_from _) with
    {| arg_query := VStr (c :: q);
       arg_vision := VStr (st_vision st);
       arg_enabledTools := toolSettings_value (st_tools st) |}.
  destruct (core _) as [e | resp]; cbn.
  - repeat split; [intros rep Hr; injection Hr as <-; discriminate | discriminate].
  - repeat split; [intros rep Hr; injection Hr as <-; discriminate |].
    intros resp' Hr. now injection Hr as <-.
Qed.

Lemma client_request_reaches_core_witness :
  core_calls (snd (handle sampleCore (received sampleFetch)))
  = [{| arg_query := VStr (trim (st_query (page sampleWorld)));
        arg_vision := VStr (st_vision (page sampleWorld));
        arg_enabledTools := toolSettings_value (st_tools (page sampleWorld)) |}].
Proof.
  apply (client_request_reaches_core sampleCore
           (lit "id-1") (lit "2024-01-01T00:00:00.000Z")
           (page sampleWorld) sampleFetch).
  reflexivity.
Defined.

End PageMore.
